(** * GitLab exporter: the metrics-collection pipeline of
      [gitlab/monitoring/gitlab_exporter.py]

    A shallow embedding of the exporter: the label-event reducer
    [calculate_time_in_state], the collector and cache [collect_metrics], the
    alert gate at its end, and the exposition renderer of
    [MetricsHandler.do_GET].

    Conventions of the embedding.
    - A [datetime] is the number of microseconds since the epoch ([Z]); the
      difference of two of them is a [timedelta], exact in microseconds.
    - A Python [float] is the rational it denotes ([Q]); an operation on
      floats rounds its exact result to the nearest binary64 number ([fl]).
      Overflow, underflow and NaN are not modelled: durations and clock
      differences are far from them.
    - A Python exception is the [Raise] result; the state reached when it is
      raised is kept, as in Python.
    - Upstream answers, clock reads and the mail transport are oracles of an
      environment [Env]; the calls made are logged in the state.
    - A Python [str] is a [string]; its characters are bytes, which is the
      same for ASCII text.
    - Output on stdout ([print]) is not modelled. *)

From Stdlib Require Import ZArith QArith Qabs Qpower Qfield Lqa.
From Stdlib Require Import List String Ascii Bool Lia.
From Stdlib Require Import DecimalString.
Import ListNotations.
Local Open Scope string_scope.
Local Open Scope list_scope.
Local Open Scope Z_scope.

(** ** Results and exceptions *)

Inductive PyError : Type :=
| AttributeError   (* method call on [None] *)
| ValueError.      (* [datetime.fromisoformat] on a string that is no date *)

Inductive Result (A : Type) : Type :=
| Ok (a : A)
| Raise (e : PyError).
Arguments Ok {A} a.
Arguments Raise {A} e.

Definition rbind {A B} (r : Result A) (k : A -> Result B) : Result B :=
  match r with
  | Ok a => k a
  | Raise e => Raise e
  end.

(** ** JSON data as the program reads it *)

(** A [created_at] field: absent ([.get] gives [None], and [.replace] raises),
    a string that [fromisoformat] rejects, or an ISO date.  A date is one with
    its UTC offset, as the upstream writes them, held as the instant in
    microseconds; dates without offset, which cannot be subtracted from
    these, are not among the inputs. *)
Inductive IsoField : Type :=
| Missing
| Malformed
| Iso (micros : Z).

(** [datetime.fromisoformat(x.get("created_at").replace("Z", "+00:00"))] *)
Definition fromisoformat (f : IsoField) : Result Z :=
  match f with
  | Missing => Raise AttributeError
  | Malformed => Raise ValueError
  | Iso t => Ok t
  end.

(** One resource label event.  [ev_label] is [None] when the event's
    [label] is null or empty ([if not label: continue]). *)
Record LabelEvent : Type := mkEvent {
  ev_created_at : IsoField;
  ev_label : option string;
  ev_action : string
}.

Record Assignee : Type := mkAssignee {
  username : option string;
  display_name : string
}.

(** An open merge request.  The optional fields are the ones the program
    reads with a default ([mr.get("source_branch", "unknown")]). *)
Record MergeRequest : Type := mkMR {
  mr_iid : Z;
  mr_title : string;
  mr_web_url : string;
  mr_created_at : IsoField;
  mr_source_branch : option string;
  mr_target_branch : option string;
  mr_labels : list string;
  mr_assignees : list Assignee
}.

Record Project : Type := mkProject {
  proj_id : Z;
  proj_path : string;
  proj_name : string;
  proj_path_with_namespace : option string
}.

(** ** Configuration ([config.py], not part of the sources: a parameter) *)

Record Config : Type := mkConfig {
  REPOSITORIES : list string;
  LABEL_REWORK : string;
  LABEL_IN_REVIEW : string;
  LABEL_REWORK_DONE : string;
  YOUR_EMAIL : string;
  SMTP_USER : string;
  SMTP_PASSWORD : string
}.

(** ** The snapshot *)

(** The five counters of one project ([defaultdict(int)]). *)
Record Stats : Type := mkStats {
  total_mrs : nat;
  rework_mrs : nat;
  rework_assigned_to_me : nat;
  in_review_mrs : nat;
  rework_done_mrs : nat
}.

Definition zero_stats : Stats := mkStats 0 0 0 0 0.

(** One per-item record, [branch_data].  The three durations are stored
    after [x or 0]. *)
Record BranchData : Type := mkBranchData {
  bd_project : string;
  bd_branch : string;
  bd_target_branch : string;
  bd_mr_title : string;
  bd_time_in_rework : Q;
  bd_time_in_review : Q;
  bd_time_to_complete : Q;
  bd_has_rework : bool;
  bd_has_in_review : bool;
  bd_has_rework_done : bool
}.

(** An entry of the list [rework_mrs] of [collect_metrics]. *)
Record AlertItem : Type := mkAlertItem {
  ai_title : string;
  ai_url : string;
  ai_created : IsoField;
  ai_project : string
}.

(** A Python [dict] with string keys: insertion-ordered, one entry per key. *)
Definition Dict (V : Type) : Type := list (string * V).

Fixpoint dict_get {V} (d : Dict V) (k : string) : option V :=
  match d with
  | [] => None
  | (k', v) :: rest => if (k' =? k)%string then Some v else dict_get rest k
  end.

(** [d[k] = v]: an existing key keeps its place. *)
Fixpoint dict_set {V} (d : Dict V) (k : string) (v : V) : Dict V :=
  match d with
  | [] => [(k, v)]
  | (k', v') :: rest =>
      if (k' =? k)%string then (k, v) :: rest else (k', v') :: dict_set rest k v
  end.

(** [d[k] = f(d[k])] on a [defaultdict] whose default is [dflt]. *)
Definition dict_update {V} (dflt : V) (d : Dict V) (k : string) (f : V -> V) : Dict V :=
  match dict_get d k with
  | Some v => dict_set d k (f v)
  | None => dict_set d k (f dflt)
  end.

(** What [metrics_cache["data"]] holds: the empty dict of line 13, or a
    [result] of line 204. *)
Inductive CacheData : Type :=
| NoData
| Collected (project_metrics : Dict Stats) (branch_metrics : list BranchData).

(** [data.get("project_metrics", {})] and [data.get("branch_metrics", [])] *)
Definition get_project_metrics (data : CacheData) : Dict Stats :=
  match data with
  | NoData => []
  | Collected pm _ => pm
  end.

Definition get_branch_metrics (data : CacheData) : list BranchData :=
  match data with
  | NoData => []
  | Collected _ bm => bm
  end.

(** ** The world around the program *)

(** The endpoints [gitlab_api] is called with. *)
Inductive Endpoint : Type :=
| EpProjects (repo_name : string)        (* projects?search=..&membership=true *)
| EpMergeRequests (project_id : Z)       (* projects/../merge_requests?state=opened&per_page=100 *)
| EpLabelEvents (project_id mr_iid : Z). (* projects/../merge_requests/../resource_label_events *)

(** What the outside answers during one call of [collect_metrics].  An API
    oracle gives [None] when anything inside the [try] of [gitlab_api] raises
    (network, HTTP status, JSON decoding), [Some json] otherwise.
    [datetime_now p i] is the clock read while item [i] of project [p] is
    reduced; [smtp_delivers] says whether the SMTP session succeeds. *)
Record Env : Type := mkEnv {
  search_projects : string -> option (list Project);
  merge_requests : Z -> option (list MergeRequest);
  label_events : Z -> Z -> option (list LabelEvent);
  datetime_now : Z -> Z -> Z;
  smtp_delivers : bool
}.

Record Email : Type := mkEmail {
  subject : string;
  body : string
}.

(** The module-level dict [metrics_cache]; the key [last_rework_count] is
    absent until the first collection. *)
Record MetricsCache : Type := mkCache {
  last_update : Q;
  data : CacheData;
  last_rework_count : option nat
}.

(** The state of the process: the cache, and two logs (newest first) of what
    it did to the outside: upstream calls and calls of [send_email_alert],
    and the mails the transport delivered. *)
Record State : Type := mkState {
  metrics_cache : MetricsCache;
  api_calls : list Endpoint;
  alert_calls : list Email;
  outbox : list Email
}.

Definition initial_state : State :=
  mkState (mkCache 0 NoData None) [] [] [].

(** Stateful code that may raise. *)
Definition M (A : Type) : Type := State -> Result A * State.

Definition ret {A} (a : A) : M A := fun st => (Ok a, st).

Definition bind {A B} (m : M A) (k : A -> M B) : M B :=
  fun st =>
    match m st with
    | (Ok a, st') => k a st'
    | (Raise e, st') => (Raise e, st')
    end.

Definition lift {A} (r : Result A) : M A := fun st => (r, st).

Notation "x <- m ;; k" := (bind m (fun x => k))
  (at level 61, m at next level, right associativity).

(** [for x in xs: acc = body(acc, x)] *)
Fixpoint for_each {A S} (body : S -> A -> M S) (acc : S) (xs : list A) : M S :=
  match xs with
  | [] => ret acc
  | x :: rest => acc' <- body acc x ;; for_each body acc' rest
  end.

(** ** Floats *)

(** Rounding to the nearest integer, ties to even. *)
Definition round_half_even (q : Q) : Z :=
  let n := Qnum q in
  let d := Zpos (Qden q) in
  let f := n / d in
  match (2 * (n mod d) ?= d) with
  | Lt => f
  | Gt => f + 1
  | Eq => if Z.even f then f else f + 1
  end.

(** The binary64 number nearest to [q], ties to the even mantissa: the
    result of a float operation whose exact result is [q].  [k] locates [|q|]
    between two powers of two, [e] is the exponent that puts the mantissa [m]
    in [2^52, 2^53].  The exponent is not bounded. *)
Definition fl (q : Q) : Q :=
  if Qnum q =? 0 then 0%Q else
  let x := Qabs q in
  let k := Z.log2 (Qnum x) - Z.log2 (QDen x) in
  let e := (if Qle_bool (2 ^ k) x then k else k - 1) - 52 in
  let m := round_half_even (x * 2 ^ (- e)) in
  Qred (inject_Z (Z.sgn (Qnum q) * m) * 2 ^ e).

(** ** Durations *)

(** [timedelta.total_seconds()]: the microseconds divided by [10**6]. *)
Definition total_seconds (delta : Z) : Q := fl (delta # 1000000).

(** [(b - a).total_seconds() / 3600] *)
Definition hours_between (a b : Z) : Q := fl (total_seconds (b - a) / 3600).

(** The three optional durations of one merge request. *)
Definition Timing : Type := (option Q * option Q * option Q)%type.

(** The three locals of the scan. *)
Record Added : Type := mkAdded {
  rework_added : option Z;
  in_review_added : option Z;
  rework_done_added : option Z
}.

Definition no_added : Added := mkAdded None None None.

(** [not x] for a local that holds [None] or a [datetime]. *)
Definition is_unset (x : option Z) : bool :=
  match x with
  | None => true
  | Some _ => false
  end.

Section Reducer.

Variable config : Config.

(** The body of the loop of [calculate_time_in_state], lines 65 to 78. *)
Definition scan_event (a : Added) (event : LabelEvent) : Result Added :=
  rbind (fromisoformat (ev_created_at event)) (fun event_time =>
  match ev_label event with
  | None => Ok a
  | Some label_name =>
      if (ev_action event =? "add")%string then
        if (label_name =? LABEL_REWORK config)%string && is_unset (rework_added a) then
          Ok (mkAdded (Some event_time) (in_review_added a) (rework_done_added a))
        else if (label_name =? LABEL_IN_REVIEW config)%string && is_unset (in_review_added a) then
          Ok (mkAdded (rework_added a) (Some event_time) (rework_done_added a))
        else if (label_name =? LABEL_REWORK_DONE config)%string && is_unset (rework_done_added a) then
          Ok (mkAdded (rework_added a) (in_review_added a) (Some event_time))
        else Ok a
      else Ok a
  end).

(** [for event in events: ...] *)
Fixpoint scan_events (a : Added) (events : list LabelEvent) : Result Added :=
  match events with
  | [] => Ok a
  | event :: rest => rbind (scan_event a event) (fun a' => scan_events a' rest)
  end.

(** Lines 80 to 98: the durations, from the recorded first adds. *)
Definition durations (created : Z) (a : Added) (now : Z) : Timing :=
  let time_in_rework :=
    match rework_added a, rework_done_added a with
    | Some r, Some d => Some (hours_between r d)
    | _, _ => None
    end in
  let time_in_review :=
    match in_review_added a with
    | Some i =>
        match rework_done_added a with
        | Some d => Some (hours_between i d)
        | None => Some (hours_between i now)
        end
    | None => None
    end in
  let time_to_complete :=
    match rework_done_added a with
    | Some d => Some (hours_between created d)
    | None => None
    end in
  (time_in_rework, time_in_review, time_to_complete).

(** [calculate_time_in_state] after the fetch of the events: [mr_created] is
    the item's [created_at], [now] what [datetime.now(tz)] returns. *)
Definition time_in_state (mr_created : IsoField) (events : list LabelEvent)
    (now : Z) : Result Timing :=
  match events with
  | [] => Ok (None, None, None)
  | _ :: _ =>
      rbind (fromisoformat mr_created) (fun created =>
      rbind (scan_events no_added events) (fun a =>
      Ok (durations created a now)))
  end.

End Reducer.

(** ** The collector *)

(** [x or 0] on an optional float: [None] and [0.0] are both falsy. *)
Definition or_zero (x : option Q) : Q :=
  match x with
  | None => 0%Q
  | Some q => if Qeq_bool q 0 then 0%Q else q
  end.

(** [s in l] on a list of strings. *)
Definition mem_string (s : string) (l : list string) : bool :=
  existsb (fun x => (x =? s)%string) l.

(** [s in l] where the elements of [l] may be [None]. *)
Definition mem_opt_string (s : string) (l : list (option string)) : bool :=
  existsb (fun x => match x with Some u => (u =? s)%string | None => false end) l.

(** [s.split("@")[0]] *)
Fixpoint before_at (s : string) : string :=
  match s with
  | EmptyString => EmptyString
  | String c rest => if (c =? "@")%char then EmptyString else String c (before_at rest)
  end.

(** [x.get(key, dflt)] *)
Definition get_default {A} (x : option A) (dflt : A) : A :=
  match x with
  | Some v => v
  | None => dflt
  end.

(** [bool(s)] for a string of the configuration. *)
Definition truthy (s : string) : bool :=
  match s with
  | EmptyString => false
  | String _ _ => true
  end.

Definition nl : string := String "010"%char EmptyString.

Definition log_call (endpoint : Endpoint) (st : State) : State :=
  mkState (metrics_cache st) (endpoint :: api_calls st) (alert_calls st) (outbox st).

(** [gitlab_api]: [response] is what the upstream answers on [endpoint];
    any failure gives the empty list. *)
Definition gitlab_api {A} (endpoint : Endpoint) (response : option (list A)) : M (list A) :=
  fun st =>
    match response with
    | Some json => (Ok json, log_call endpoint st)
    | None => (Ok [], log_call endpoint st)
    end.

(** The locals [metrics], [branch_metrics] and [rework_mrs] of
    [collect_metrics]. *)
Record Acc : Type := mkAcc {
  acc_metrics : Dict Stats;
  acc_branch_metrics : list BranchData;
  acc_rework_mrs : list AlertItem
}.

Definition incr_total (s : Stats) : Stats :=
  mkStats (S (total_mrs s)) (rework_mrs s) (rework_assigned_to_me s)
          (in_review_mrs s) (rework_done_mrs s).
Definition incr_rework (s : Stats) : Stats :=
  mkStats (total_mrs s) (S (rework_mrs s)) (rework_assigned_to_me s)
          (in_review_mrs s) (rework_done_mrs s).
Definition incr_rework_assigned_to_me (s : Stats) : Stats :=
  mkStats (total_mrs s) (rework_mrs s) (S (rework_assigned_to_me s))
          (in_review_mrs s) (rework_done_mrs s).
Definition incr_in_review (s : Stats) : Stats :=
  mkStats (total_mrs s) (rework_mrs s) (rework_assigned_to_me s)
          (S (in_review_mrs s)) (rework_done_mrs s).
Definition incr_rework_done (s : Stats) : Stats :=
  mkStats (total_mrs s) (rework_mrs s) (rework_assigned_to_me s)
          (in_review_mrs s) (S (rework_done_mrs s)).

(** Lines 35 to 39: the first search result whose path or name is
    [repo_name]. *)
Definition match_project (result : list Project) (repo_name : string) : option Project :=
  find (fun proj => (proj_path proj =? repo_name)%string
                    || (proj_name proj =? repo_name)%string) result.

(** [project.get("path_with_namespace", "unknown")] *)
Definition project_name_of (project : Project) : string :=
  get_default (proj_path_with_namespace project) "unknown".

(** Lines 184 to 189: the entry appended to [rework_mrs] for an item. *)
Definition alert_item (project_name : string) (mr : MergeRequest) : AlertItem :=
  mkAlertItem (mr_title mr) (mr_web_url mr) (mr_created_at mr) project_name.

Section Collector.

Variable config : Config.
Variable env : Env.

(** The body of the loop of [get_all_projects]. *)
Definition find_project (projects : list Project) (repo_name : string) : M (list Project) :=
  result <- gitlab_api (EpProjects repo_name) (search_projects env repo_name) ;;
  match match_project result repo_name with
  | Some proj => ret (projects ++ [proj])
  | None => ret projects
  end.

Definition get_all_projects : M (list Project) :=
  for_each find_project [] (REPOSITORIES config).

Definition get_merge_requests (project_id : Z) : M (list MergeRequest) :=
  gitlab_api (EpMergeRequests project_id) (merge_requests env project_id).

Definition get_mr_label_events (project_id mr_iid : Z) : M (list LabelEvent) :=
  gitlab_api (EpLabelEvents project_id mr_iid) (label_events env project_id mr_iid).

Definition calculate_time_in_state (mr : MergeRequest) (project_id : Z) : M Timing :=
  events <- get_mr_label_events project_id (mr_iid mr) ;;
  lift (time_in_state config (mr_created_at mr) events
          (datetime_now env project_id (mr_iid mr))).

(** Is the item assigned to the configured identity (line 182)? *)
Definition assigned_to_me (mr : MergeRequest) : bool :=
  mem_opt_string (before_at (YOUR_EMAIL config)) (map username (mr_assignees mr)).

(** Lines 163 to 174: the per-item record. *)
Definition branch_record (project_name : string) (mr : MergeRequest)
    (timing : Timing) : BranchData :=
  let '(time_in_rework, time_in_review, time_to_complete) := timing in
  mkBranchData project_name
    (get_default (mr_source_branch mr) "unknown")
    (get_default (mr_target_branch mr) "main")
    (mr_title mr)
    (or_zero time_in_rework) (or_zero time_in_review) (or_zero time_to_complete)
    (mem_string (LABEL_REWORK config) (mr_labels mr))
    (mem_string (LABEL_IN_REVIEW config) (mr_labels mr))
    (mem_string (LABEL_REWORK_DONE config) (mr_labels mr)).

(** Lines 178 to 189: the rework counters and the alert list. *)
Definition count_rework (project_name : string) (mr : MergeRequest)
    (metrics : Dict Stats) (rework_list : list AlertItem)
    : Dict Stats * list AlertItem :=
  if mem_string (LABEL_REWORK config) (mr_labels mr) then
    let metrics := dict_update zero_stats metrics project_name incr_rework in
    if assigned_to_me mr then
      (dict_update zero_stats metrics project_name incr_rework_assigned_to_me,
       rework_list ++ [alert_item project_name mr])
    else (metrics, rework_list)
  else (metrics, rework_list).

(** Lines 191 to 195. *)
Definition count_states (project_name : string) (mr : MergeRequest)
    (metrics : Dict Stats) : Dict Stats :=
  let metrics :=
    if mem_string (LABEL_IN_REVIEW config) (mr_labels mr)
    then dict_update zero_stats metrics project_name incr_in_review
    else metrics in
  if mem_string (LABEL_REWORK_DONE config) (mr_labels mr)
  then dict_update zero_stats metrics project_name incr_rework_done
  else metrics.

(** What one item adds to the locals, given its durations. *)
Definition record_mr (project_name : string) (acc : Acc) (mr : MergeRequest)
    (timing : Timing) : Acc :=
  let metrics := dict_update zero_stats (acc_metrics acc) project_name incr_total in
  let branch_metrics := acc_branch_metrics acc ++ [branch_record project_name mr timing] in
  let '(metrics, rework_list) :=
    count_rework project_name mr metrics (acc_rework_mrs acc) in
  mkAcc (count_states project_name mr metrics) branch_metrics rework_list.

(** The body of [for mr in mrs], lines 149 to 195.  The increment of
    line 157 is on a local, so it is made with the rest after the call. *)
Definition process_mr (project_name : string) (project_id : Z)
    (acc : Acc) (mr : MergeRequest) : M Acc :=
  timing <- calculate_time_in_state mr project_id ;;
  ret (record_mr project_name acc mr timing).

(** The body of [for project in projects], lines 136 to 195. *)
Definition process_project (acc : Acc) (project : Project) : M Acc :=
  let project_id := proj_id project in
  let project_name := project_name_of project in
  let acc := mkAcc (dict_set (acc_metrics acc) project_name zero_stats)
                   (acc_branch_metrics acc) (acc_rework_mrs acc) in
  mrs <- get_merge_requests project_id ;;
  for_each (process_mr project_name project_id) acc mrs.

(** Lines 129 to 195: the collection proper. *)
Definition collect : M Acc :=
  projects <- get_all_projects ;;
  for_each process_project (mkAcc [] [] []) projects.

End Collector.

(** ** Alerting and the cache *)

Definition get_cache : M MetricsCache := fun st => (Ok (metrics_cache st), st).

Definition put_cache (c : MetricsCache) : M unit :=
  fun st => (Ok tt, mkState c (api_calls st) (alert_calls st) (outbox st)).

(** One entry of the mail body, line 201. *)
Definition alert_entry (mr : AlertItem) : string :=
  ("• " ++ ai_title mr ++ nl ++ "  " ++ ai_url mr ++ nl
   ++ "  Project: " ++ ai_project mr ++ nl ++ nl)%string.

Definition alert_body (rework_list : list AlertItem) : string :=
  fold_left (fun body mr => (body ++ alert_entry mr)%string) rework_list
    ("You have been assigned REWORK on the following MRs:" ++ nl ++ nl)%string.

Definition alert_subject : string := "⚠️ GitLab: Rework Assigned to You".

Section Cache.

Variable config : Config.
Variable env : Env.

(** [send_email_alert]: every call is logged; the mail leaves only when the
    three settings are set and the SMTP session does not raise. *)
Definition send_email_alert (subject body : string) : M unit :=
  fun st =>
    let mail := mkEmail subject body in
    let sent :=
      if truthy (SMTP_USER config) && truthy (SMTP_PASSWORD config)
         && truthy (YOUR_EMAIL config) && smtp_delivers env
      then mail :: outbox st else outbox st in
    (Ok tt, mkState (metrics_cache st) (api_calls st) (mail :: alert_calls st) sent).

(** The condition of line 198. *)
Definition should_alert (cache : MetricsCache) (rework_list : list AlertItem) : bool :=
  match rework_list with
  | [] => false
  | _ :: _ => (get_default (last_rework_count cache) 0 <? List.length rework_list)%nat
  end.

(** Lines 197 to 211, after the collection. *)
Definition alert_and_store (now : Q) (acc : Acc) : M CacheData :=
  cache <- get_cache ;;
  _ <- (if should_alert cache (acc_rework_mrs acc)
        then send_email_alert alert_subject (alert_body (acc_rework_mrs acc))
        else ret tt) ;;
  let result := Collected (acc_metrics acc) (acc_branch_metrics acc) in
  _ <- put_cache (mkCache now result (Some (List.length (acc_rework_mrs acc)))) ;;
  ret result.

(** [x < y] on floats. *)
Definition Qlt_bool (x y : Q) : bool := negb (Qle_bool y x).

(** [collect_metrics]; [now] is what [time.time()] returns. *)
Definition collect_metrics (now : Q) : M CacheData :=
  cache <- get_cache ;;
  if Qlt_bool (fl (now - last_update cache)) 10 then ret (data cache)
  else acc <- collect config env ;; alert_and_store now acc.

End Cache.

(** ** The exposition renderer *)

Definition dq : string := String "034"%char EmptyString.

(** [s.replace('"', '\\"')] *)
Fixpoint escape_quotes (s : string) : string :=
  match s with
  | EmptyString => EmptyString
  | String c rest =>
      if (c =? "034")%char then String "\"%char (String "034"%char (escape_quotes rest))
      else String c (escape_quotes rest)
  end.

(** An [int] in an f-string. *)
Definition string_of_nat (n : nat) : string := NilEmpty.string_of_uint (Nat.to_uint n).

Definition two_digits (n : Z) : string :=
  if n <? 10 then ("0" ++ string_of_nat (Z.to_nat n))%string
  else string_of_nat (Z.to_nat n).

(** [f"{x:.2f}"]: the decimal with two places nearest to the number the
    float denotes, ties to even. *)
Definition format_2f (x : Q) : string :=
  let cents := Z.abs (round_half_even (x * 100)) in
  ((if (Qnum x <? 0)%Z then "-" else EmptyString)
   ++ string_of_nat (Z.to_nat (cents / 100)) ++ "." ++ two_digits (cents mod 100))%string.

Definition header_lines : list string := [
  "# HELP gitlab_merge_requests_total Total merge requests by project";
  "# TYPE gitlab_merge_requests_total gauge";
  "# HELP gitlab_rework_mrs MRs with rework label";
  "# TYPE gitlab_rework_mrs gauge";
  "# HELP gitlab_rework_assigned_to_me MRs with rework assigned to me";
  "# TYPE gitlab_rework_assigned_to_me gauge";
  "# HELP gitlab_in_review_mrs MRs in review";
  "# TYPE gitlab_in_review_mrs gauge";
  "# HELP gitlab_rework_done_mrs MRs with rework done";
  "# TYPE gitlab_rework_done_mrs gauge";
  "# HELP gitlab_mr_info MR information with branch labels";
  "# TYPE gitlab_mr_info gauge";
  "# HELP gitlab_mr_time_in_rework_hours Time spent in rework per MR (hours)";
  "# TYPE gitlab_mr_time_in_rework_hours gauge";
  "# HELP gitlab_mr_time_in_review_hours Time spent in review per MR (hours)";
  "# TYPE gitlab_mr_time_in_review_hours gauge";
  "# HELP gitlab_mr_time_to_complete_hours Time to complete MR (hours)";
  "# TYPE gitlab_mr_time_to_complete_hours gauge"
].

(** [name{project="p"} n] *)
Definition project_sample (name project : string) (n : nat) : string :=
  (name ++ "{project=" ++ dq ++ project ++ dq ++ "} " ++ string_of_nat n)%string.

(** Lines 248 to 252. *)
Definition project_lines (entry : string * Stats) : list string :=
  let '(project, stats) := entry in
  [ project_sample "gitlab_merge_requests_total" project (total_mrs stats);
    project_sample "gitlab_rework_mrs" project (rework_mrs stats);
    project_sample "gitlab_rework_assigned_to_me" project (rework_assigned_to_me stats);
    project_sample "gitlab_in_review_mrs" project (in_review_mrs stats);
    project_sample "gitlab_rework_done_mrs" project (rework_done_mrs stats) ].

(** [name{project="..",branch="..",target="..",title=".."} value] *)
Definition branch_sample (name project branch target title value : string) : string :=
  (name ++ "{project=" ++ dq ++ project ++ dq ++ ",branch=" ++ dq ++ branch ++ dq
   ++ ",target=" ++ dq ++ target ++ dq ++ ",title=" ++ dq ++ title ++ dq ++ "} "
   ++ value)%string.

(** Lines 256 to 272: the lines of one per-item record. *)
Definition branch_lines (branch_data : BranchData) : list string :=
  let project := bd_project branch_data in
  let branch := escape_quotes (bd_branch branch_data) in
  let target := escape_quotes (bd_target_branch branch_data) in
  let title := substring 0 50 (escape_quotes (bd_mr_title branch_data)) in
  [branch_sample "gitlab_mr_info" project branch target title "1"]
  ++ (if Qlt_bool 0 (bd_time_in_rework branch_data)
      then [branch_sample "gitlab_mr_time_in_rework_hours" project branch target title
              (format_2f (bd_time_in_rework branch_data))]
      else [])
  ++ (if Qlt_bool 0 (bd_time_in_review branch_data)
      then [branch_sample "gitlab_mr_time_in_review_hours" project branch target title
              (format_2f (bd_time_in_review branch_data))]
      else [])
  ++ (if Qlt_bool 0 (bd_time_to_complete branch_data)
      then [branch_sample "gitlab_mr_time_to_complete_hours" project branch target title
              (format_2f (bd_time_to_complete branch_data))]
      else []).

(** The list [lines] of [do_GET]. *)
Definition render (data : CacheData) : list string :=
  header_lines
  ++ flat_map project_lines (get_project_metrics data)
  ++ flat_map branch_lines (get_branch_metrics data).

Record Response : Type := mkResponse {
  status : Z;
  content_type : option string;
  payload : string
}.

(** [MetricsHandler.do_GET] on request path [path].  The records hold strings
    where the upstream schema has strings, so the rendering inside the [try]
    returns; the [except] answers what [collect_metrics] raises. *)
Definition do_GET (config : Config) (env : Env) (path : string) (now : Q) : M Response :=
  if (path =? "/metrics")%string then
    fun st =>
      match collect_metrics config env now st with
      | (Ok data, st') =>
          (Ok (mkResponse 200 (Some "text/plain; charset=utf-8")
                 (String.concat nl (render data))), st')
      | (Raise _, st') => (Ok (mkResponse 500 None EmptyString), st')
      end
  else ret (mkResponse 404 None EmptyString).

(** The event carries a date. *)
Definition timestamped (ev : LabelEvent) : Prop :=
  exists t, ev_created_at ev = Iso t.

(** ** The collection as a function of the upstream answers *)

(** The loops of the collector without the state: a fold that stops at the
    first exception. *)
Fixpoint rfold {A S} (f : S -> A -> Result S) (acc : S) (xs : list A) : Result S :=
  match xs with
  | [] => Ok acc
  | x :: rest => rbind (f acc x) (fun acc' => rfold f acc' rest)
  end.

Section Collected.

Variable config : Config.
Variable env : Env.

(** The project kept for one configured name, if any. *)
Definition resolved_project (repo_name : string) : list Project :=
  match match_project (get_default (search_projects env repo_name) []) repo_name with
  | Some proj => [proj]
  | None => []
  end.

(** The list [projects] of [collect_metrics]. *)
Definition resolved_projects : list Project :=
  flat_map resolved_project (REPOSITORIES config).

(** The open items of a project, as fetched. *)
Definition fetched_mrs (project_id : Z) : list MergeRequest :=
  get_default (merge_requests env project_id) [].

(** The durations of one item. *)
Definition reduce_item (project_id : Z) (mr : MergeRequest) : Result Timing :=
  time_in_state config (mr_created_at mr)
    (get_default (label_events env project_id (mr_iid mr)) [])
    (datetime_now env project_id (mr_iid mr)).

Definition item_step (project_name : string) (project_id : Z)
    (acc : Acc) (mr : MergeRequest) : Result Acc :=
  rbind (reduce_item project_id mr) (fun timing =>
  Ok (record_mr config project_name acc mr timing)).

Definition project_step (acc : Acc) (project : Project) : Result Acc :=
  rfold (item_step (project_name_of project) (proj_id project))
    (mkAcc (dict_set (acc_metrics acc) (project_name_of project) zero_stats)
           (acc_branch_metrics acc) (acc_rework_mrs acc))
    (fetched_mrs (proj_id project)).

Definition collected : Result Acc :=
  rfold project_step (mkAcc [] [] []) resolved_projects.

(** The items in the order the collector meets them. *)
Definition work_items : list (Project * MergeRequest) :=
  flat_map (fun project => map (pair project) (fetched_mrs (proj_id project)))
    resolved_projects.

End Collected.

(** A run that only adds upstream calls to the state. *)
Definition only_calls (st st' : State) : Prop :=
  metrics_cache st' = metrics_cache st
  /\ alert_calls st' = alert_calls st
  /\ outbox st' = outbox st
  /\ exists calls, api_calls st' = calls ++ api_calls st.

(** [m] returns (or raises) [r] from every state and only adds upstream
    calls. *)
Definition runs_as {A} (m : M A) (r : Result A) : Prop :=
  forall st, exists st', m st = (r, st') /\ only_calls st st'.

(** What the snapshot says about the project named [n]: its counters, its
    per-item records and its alert items. *)
Definition view (n : string) (acc : Acc)
    : option Stats * list BranchData * list AlertItem :=
  (dict_get (acc_metrics acc) n,
   filter (fun r => (bd_project r =? n)%string) (acc_branch_metrics acc),
   filter (fun a => (ai_project a =? n)%string) (acc_rework_mrs acc)).

(** The upstream of [env] with the call on [endpoint] failing. *)
Definition fail_call (endpoint : Endpoint) (env : Env) : Env :=
  match endpoint with
  | EpProjects r =>
      mkEnv (fun r' => if (r' =? r)%string then None else search_projects env r')
            (merge_requests env) (label_events env)
            (datetime_now env) (smtp_delivers env)
  | EpMergeRequests p =>
      mkEnv (search_projects env)
            (fun p' => if p' =? p then None else merge_requests env p')
            (label_events env) (datetime_now env) (smtp_delivers env)
  | EpLabelEvents p i =>
      mkEnv (search_projects env) (merge_requests env)
            (fun p' i' => if (p' =? p) && (i' =? i) then None else label_events env p' i')
            (datetime_now env) (smtp_delivers env)
  end.

(** The project named [n] is one the call on [endpoint] is about. *)
Definition touches (config : Config) (env : Env) (endpoint : Endpoint) (n : string) : Prop :=
  match endpoint with
  | EpProjects r =>
      exists proj, In proj (resolved_project env r) /\ project_name_of proj = n
  | EpMergeRequests p | EpLabelEvents p _ =>
      exists proj, In proj (resolved_projects config env)
                   /\ proj_id proj = p /\ project_name_of proj = n
  end.

(** Every date the upstream delivers is a date: the creation date of each
    item and the dates of its label events. *)
Definition env_dated (env : Env) : Prop :=
  forall project_id mrs mr,
    merge_requests env project_id = Some mrs -> In mr mrs ->
    (exists c, mr_created_at mr = Iso c)
    /\ forall events, label_events env project_id (mr_iid mr) = Some events ->
                      Forall timestamped events.

(** ** Vocabulary of the statements *)

(** The event is an add of [label]. *)
Definition is_add (label : string) (ev : LabelEvent) : bool :=
  (ev_action ev =? "add")%string
  && match ev_label ev with
     | Some label_name => (label_name =? label)%string
     | None => false
     end.

(** The date of the first add of [label] in the log. *)
Fixpoint first_add (label : string) (events : list LabelEvent) : option Z :=
  match events with
  | [] => None
  | ev :: rest =>
      if is_add label ev then
        match ev_created_at ev with
        | Iso t => Some t
        | _ => None
        end
      else first_add label rest
  end.

(** Some event of the log is an add of [label] dated [t]. *)
Definition add_at (label : string) (t : Z) (events : list LabelEvent) : Prop :=
  exists ev, In ev events /\ is_add label ev = true /\ ev_created_at ev = Iso t.

(** What is recorded once stays: a later event never overwrites it. *)
Definition or_first (recorded found : option Z) : option Z :=
  match recorded with
  | Some t => Some t
  | None => found
  end.

(** An optional duration is absent or not negative. *)
Definition absent_or_nonneg (x : option Q) : Prop :=
  match x with
  | None => True
  | Some q => (0 <= q)%Q
  end.

(** [s.startswith(p)] *)
Fixpoint starts_with (p s : string) : bool :=
  match p with
  | EmptyString => true
  | String a p' =>
      match s with
      | EmptyString => false
      | String b s' => (a =? b)%char && starts_with p' s'
      end
  end.

(** The sample lines of the series [name] among [lines]. *)
Definition samples_of (name : string) (lines : list string) : list string :=
  filter (starts_with (name ++ "{")%string) lines.

(** The sample line of a timing series for one per-item record. *)
Definition timing_line (name : string) (bd : BranchData) (value : Q) : string :=
  branch_sample name (bd_project bd) (escape_quotes (bd_branch bd))
    (escape_quotes (bd_target_branch bd))
    (substring 0 50 (escape_quotes (bd_mr_title bd))) (format_2f value).

(** A duration without a positive measure: absent, or measured as zero. *)
Definition blank (x : option Q) : Prop :=
  match x with
  | None => True
  | Some q => (q == 0)%Q
  end.

(** Two optional durations that differ at most by absent against zero. *)
Definition same_measure (x y : option Q) : Prop := x = y \/ (blank x /\ blank y).

(** The counters of project [k] in the local [metrics]. *)
Definition stats_at (metrics : Dict Stats) (k : string) : Stats :=
  get_default (dict_get metrics k) zero_stats.

(** ["@" in s] *)
Fixpoint has_at (s : string) : bool :=
  match s with
  | EmptyString => false
  | String c rest => (c =? "@")%char || has_at rest
  end.

(** The counter [rework_assigned_to_me] of project [k] in the locals. *)
Definition assigned_count (k : string) (acc : Acc) : nat :=
  rework_assigned_to_me (stats_at (acc_metrics acc) k).

(** [r] is the per-item record of the work item [item]: the record built
    from the durations its reduction returns. *)
Definition record_of (config : Config) (env : Env)
    (item : Project * MergeRequest) (r : BranchData) : Prop :=
  exists timing,
    reduce_item config env (proj_id (fst item)) (snd item) = Ok timing
    /\ r = branch_record config (project_name_of (fst item)) (snd item) timing.

(** Is [project] named [n] in the snapshot? *)
Definition named (n : string) (project : Project) : bool :=
  (project_name_of project =? n)%string.

(** The item is under rework and assigned to the configured identity. *)
Definition mine (config : Config) (mr : MergeRequest) : bool :=
  mem_string (LABEL_REWORK config) (mr_labels mr) && assigned_to_me config mr.

(** The alert entries of the items of [items] that are [mine], in order. *)
Definition alert_items_of (config : Config) (items : list (Project * MergeRequest))
    : list AlertItem :=
  flat_map (fun item => if mine config (snd item)
                        then [alert_item (project_name_of (fst item)) (snd item)]
                        else [])
           items.

(** The alert log grew by one between two states. *)
Definition fired (st st' : State) : bool :=
  (List.length (alert_calls st') =? S (List.length (alert_calls st)))%nat.

(** Successive scrapes, each with its upstream and its clock: did each one
    hand a mail to [send_email_alert]? *)
Fixpoint alerts_fired (config : Config) (cycles : list (Env * Q)) (st : State)
    : list bool :=
  match cycles with
  | [] => []
  | (env, now) :: rest =>
      let st' := snd (collect_metrics config env now st) in
      fired st st' :: alerts_fired config rest st'
  end.

(** ** Sample data *)

Definition hour : Z := 3600000000.

Definition sample_config : Config :=
  mkConfig ["exporter"] "rework" "in_review" "rework_done"
           "bob@example.com" "mailer" "secret".

Definition add_event (t : Z) (label : string) : LabelEvent :=
  mkEvent (Iso t) (Some label) "add".

Definition remove_event (t : Z) (label : string) : LabelEvent :=
  mkEvent (Iso t) (Some label) "remove".

(** Rework at 1 h, done at 3 h, with removes and repeated adds around. *)
Definition busy_log : list LabelEvent :=
  [ add_event (1 * hour) "rework";
    remove_event (2 * hour) "rework";
    add_event (3 * hour) "rework_done";
    add_event (4 * hour) "rework";
    remove_event (5 * hour) "rework_done";
    add_event (6 * hour) "rework_done" ].

(** Rework, review, done, in that order. *)
Definition ordered_log : list LabelEvent :=
  [ add_event (1 * hour) "rework";
    add_event (2 * hour) "in_review";
    remove_event (2 * hour) "rework";
    add_event (3 * hour) "rework_done" ].

(** Rework and review, never done. *)
Definition open_log : list LabelEvent :=
  [ add_event (1 * hour) "rework";
    add_event (2 * hour) "in_review";
    remove_event (3 * hour) "rework" ].

(** The rework_done add is dated before the item was created. *)
Definition early_done_log : list LabelEvent :=
  [ add_event (1 * hour) "rework_done" ].

(** The three labels added at the instant of creation. *)
Definition instant_log : list LabelEvent :=
  [ add_event (1 * hour) "rework";
    add_event (1 * hour) "in_review";
    add_event (1 * hour) "rework_done" ].

Definition sample_project : Project :=
  mkProject 7 "exporter" "Exporter" (Some "ops/exporter").

Definition bob : Assignee := mkAssignee (Some "bob") "Bob Example".

(** An open item under rework, assigned to bob. *)
Definition rework_mr (i : Z) : MergeRequest :=
  mkMR i "Fix scrape" "https://gitlab.example.com/ops/exporter/-/merge_requests/1"
       (Iso (1 * hour)) (Some "fix-scrape") (Some "main") ["rework"] [bob].

(** An open item without any watched label. *)
Definition plain_mr (i : Z) : MergeRequest :=
  mkMR i "Add docs" "https://gitlab.example.com/ops/exporter/-/merge_requests/2"
       (Iso (1 * hour)) (Some "docs") (Some "main") [] [].

(** One project with the items [mrs]; [events i] is the answer to the
    label-event call for item [i]. *)
Definition sample_env (mrs : list MergeRequest)
    (events : Z -> option (list LabelEvent)) : Env :=
  mkEnv (fun _ => Some [sample_project]) (fun _ => Some mrs)
        (fun _ i => events i) (fun _ _ => 9 * hour) true.

(** [k] items under rework assigned to bob, numbered from 1. *)
Definition rework_mrs_upto (k : nat) : list MergeRequest :=
  map (fun i => rework_mr (Z.of_nat i)) (seq 1 k).

Definition cycle_env (k : nat) : Env :=
  sample_env (rework_mrs_upto k) (fun _ => Some []).

(** An item under rework whose only assignee has the full address as
    username and the local part as display name. *)
Definition misassigned_mr : MergeRequest :=
  mkMR 5 "Tune cache" "https://gitlab.example.com/ops/exporter/-/merge_requests/5"
       (Iso (1 * hour)) (Some "tune-cache") (Some "main") ["rework"]
       [mkAssignee (Some "bob@example.com") "bob"].

(** Answers to the label-event calls: the log of item 2 has an event whose
    date is no date, the other items have [ordered_log]. *)
Definition bad_events (i : Z) : option (list LabelEvent) :=
  if i =? 2 then Some [mkEvent Malformed (Some "rework") "add"] else Some ordered_log.

Definition good_events (i : Z) : option (list LabelEvent) := Some ordered_log.

Definition other_project : Project :=
  mkProject 8 "dashboard" "Dashboard" (Some "ops/dashboard").

Definition two_config : Config :=
  mkConfig ["exporter"; "dashboard"] "rework" "in_review" "rework_done"
           "bob@example.com" "mailer" "secret".

(** Two projects: the exporter with an item under rework, the dashboard
    with a plain item. *)
Definition two_project_env : Env :=
  mkEnv (fun r => Some [other_project; sample_project])
        (fun p => if p =? 7 then Some [rework_mr 1] else Some [plain_mr 2])
        (fun _ _ => Some ordered_log) (fun _ _ => 9 * hour) true.

(** A per-item record whose time in review is [v] hours. *)
Definition review_record (v : Q) : BranchData :=
  mkBranchData "ops/exporter" "docs" "main" "Add docs" 0 v 0 false true false.

(** A state refreshed at second 95. *)
Definition warm_state : State :=
  mkState (mkCache 95 (Collected [("ops/exporter", zero_stats)] []) (Some 0%nat))
          [EpMergeRequests 7; EpProjects "exporter"] [] [].

(** Two configured names for the same project: its path and its name. *)
Definition twice_config : Config :=
  mkConfig ["exporter"; "Exporter"] "rework" "in_review" "rework_done"
           "bob@example.com" "mailer" "secret".

(** ** Vocabulary of the further statements *)

(** The state after the upstream calls [calls], made in that order. *)
Definition add_calls (calls : list Endpoint) (st : State) : State :=
  mkState (metrics_cache st) (rev calls ++ api_calls st) (alert_calls st) (outbox st).

(** [m] returns (or raises) [r] from every state after making exactly the
    upstream calls [calls], in that order, and does nothing else. *)
Definition logs {A} (m : M A) (r : Result A) (calls : list Endpoint) : Prop :=
  forall st, m st = (r, add_calls calls st).

(** The calls of a cycle for one project: its item list, then the label
    events of each item. *)
Definition project_calls (env : Env) (project : Project) : list Endpoint :=
  EpMergeRequests (proj_id project)
  :: map (fun mr => EpLabelEvents (proj_id project) (mr_iid mr))
         (fetched_mrs env (proj_id project)).

(** The calls of a whole cycle: one search per configured name, then the
    calls of each resolved project. *)
Definition cycle_calls (config : Config) (env : Env) : list Endpoint :=
  map EpProjects (REPOSITORIES config)
  ++ flat_map (project_calls env) (resolved_projects config env).

(** Does the project match the configured name (line 36)? *)
Definition matches_name (repo_name : string) (proj : Project) : bool :=
  (proj_path proj =? repo_name)%string || (proj_name proj =? repo_name)%string.

(** The counters of a project fit together. *)
Definition stats_ordered (s : Stats) : Prop :=
  (rework_assigned_to_me s <= rework_mrs s)%nat
  /\ (rework_mrs s <= total_mrs s)%nat
  /\ (in_review_mrs s <= total_mrs s)%nat
  /\ (rework_done_mrs s <= total_mrs s)%nat.

(** The keys of a dict, in order. *)
Definition keys {V} (d : Dict V) : list string := map fst d.

(** What lines 157 and 178 to 195 together do to the counters of the
    project of an item. *)
Definition item_counts (config : Config) (mr : MergeRequest) (s : Stats) : Stats :=
  let s := incr_total s in
  let s :=
    if mem_string (LABEL_REWORK config) (mr_labels mr) then
      if assigned_to_me config mr
      then incr_rework_assigned_to_me (incr_rework s)
      else incr_rework s
    else s in
  let s :=
    if mem_string (LABEL_IN_REVIEW config) (mr_labels mr) then incr_in_review s else s in
  if mem_string (LABEL_REWORK_DONE config) (mr_labels mr) then incr_rework_done s else s.

(** The number of records of project [n] that satisfy [flag]. *)
Definition count_records (n : string) (flag : BranchData -> bool)
    (records : list BranchData) : nat :=
  List.length (filter (fun r => (bd_project r =? n)%string && flag r) records).

(** The counters, if any, are the numbers of the records and alert items of
    the same project. *)
Definition counted (n : string) (acc : Acc) : Prop :=
  match dict_get (acc_metrics acc) n with
  | Some s =>
      total_mrs s = count_records n (fun _ => true) (acc_branch_metrics acc)
      /\ rework_mrs s = count_records n bd_has_rework (acc_branch_metrics acc)
      /\ in_review_mrs s = count_records n bd_has_in_review (acc_branch_metrics acc)
      /\ rework_done_mrs s = count_records n bd_has_rework_done (acc_branch_metrics acc)
      /\ rework_assigned_to_me s
         = List.length (filter (fun a => (ai_project a =? n)%string) (acc_rework_mrs acc))
  | None =>
      count_records n (fun _ => true) (acc_branch_metrics acc) = 0%nat
      /\ filter (fun a => (ai_project a =? n)%string) (acc_rework_mrs acc) = []
  end.

(** The [gitlab_mr_info] line of a per-item record (line 262). *)
Definition info_line (bd : BranchData) : string :=
  branch_sample "gitlab_mr_info" (bd_project bd) (escape_quotes (bd_branch bd))
    (escape_quotes (bd_target_branch bd))
    (substring 0 50 (escape_quotes (bd_mr_title bd))) "1".

(** In [s], is every double quote right after a backslash?  [guarded] says
    whether the character before [s] is a backslash. *)
Fixpoint quotes_guarded (guarded : bool) (s : string) : bool :=
  match s with
  | EmptyString => true
  | String c rest =>
      (if (c =? "034")%char then guarded else true)
      && quotes_guarded (c =? "\")%char rest
  end.

(** The number of double quotes of [s]. *)
Fixpoint count_quotes (s : string) : nat :=
  match s with
  | EmptyString => 0
  | String c rest => (if (c =? "034")%char then 1 else 0) + count_quotes rest
  end.

(** The field is no date: it is absent, or a string [fromisoformat]
    rejects. *)
Definition undated (f : IsoField) : bool :=
  match f with
  | Iso _ => false
  | Missing | Malformed => true
  end.

(** The label events the collector gets for a work item. *)
Definition item_events (env : Env) (item : Project * MergeRequest) : list LabelEvent :=
  get_default (label_events env (proj_id (fst item)) (mr_iid (snd item))) [].

(** The work item has label events, and its creation date or the date of
    one of its events is no date. *)
Definition item_broken (env : Env) (item : Project * MergeRequest) : Prop :=
  item_events env item <> []
  /\ (undated (mr_created_at (snd item)) = true
      \/ Exists (fun ev => undated (ev_created_at ev) = true) (item_events env item)).

(** The three settings [send_email_alert] asks for are set. *)
Definition configured (config : Config) : bool :=
  truthy (SMTP_USER config) && truthy (SMTP_PASSWORD config) && truthy (YOUR_EMAIL config).

(** Requests handled one after the other, each with its path, its upstream
    and its clock: the responses and the state left. *)
Fixpoint scrapes (config : Config) (requests : list (string * Env * Q)) (st : State)
    : list Response * State :=
  match requests with
  | [] => ([], st)
  | (path, env, now) :: rest =>
      match do_GET config env path now st with
      | (Ok response, st1) =>
          let '(responses, st2) := scrapes config rest st1 in
          (response :: responses, st2)
      | (Raise _, st1) => scrapes config rest st1
      end
  end.

(** The cache holds nothing yet, or the snapshot of a completed cycle. *)
Definition cache_sound (c : MetricsCache) : Prop :=
  match data c with
  | NoData => last_rework_count c = None /\ last_update c = 0%Q
  | Collected pm bm =>
      (exists k, last_rework_count c = Some k /\ (k <= List.length bm)%nat)
      /\ NoDup (keys pm)
      /\ Forall (fun kv => stats_ordered (snd kv)) pm
      /\ Forall (fun r => In (bd_project r) (keys pm)) bm
  end.

(** The request can end in a delivered mail: it asks for the page, the mail
    settings are set and the SMTP session of its upstream succeeds. *)
Definition may_mail (config : Config) (request : string * Env * Q) : bool :=
  (fst (fst request) =? "/metrics")%string && configured config
  && smtp_delivers (snd (fst request)).

(** The cache as lines 208 to 210 leave it after a cycle that read the clock
    [now] and filled the locals [acc]. *)
Definition cache_of (now : Q) (acc : Acc) : MetricsCache :=
  mkCache now (Collected (acc_metrics acc) (acc_branch_metrics acc))
          (Some (List.length (acc_rework_mrs acc))).

(** ** Floats: the error of a rounding *)

(** [fl] on the decimals 0.1 and 1/3, and on 18 seconds in hours: the
    numbers Python has for [0.1], [1/3] and [18.0/3600]. *)
Example fl_tenth : fl (1 # 10) = 3602879701896397 # 36028797018963968.
Proof. vm_compute. reflexivity. Qed.

Example fl_third : fl (1 # 3) = 6004799503160661 # 18014398509481984.
Proof. vm_compute. reflexivity. Qed.

Example hours_of_18_seconds :
  hours_between 0 18000000 = 5764607523034235 # 1152921504606846976.
Proof. vm_compute. reflexivity. Qed.

Example format_of_18_seconds : format_2f (hours_between 0 18000000) = "0.01".
Proof. vm_compute. reflexivity. Qed.

Example format_of_54_seconds : format_2f (hours_between 0 54000000) = "0.01".
Proof. vm_compute. reflexivity. Qed.

Lemma round_half_even_error q :
  2 * Z.abs (round_half_even q * QDen q - Qnum q) <= QDen q.
Proof.
  unfold round_half_even.
  pose proof (Z.div_mod (Qnum q) (QDen q) ltac:(lia)) as Hdm.
  pose proof (Z.mod_pos_bound (Qnum q) (QDen q) ltac:(lia)) as Hb.
  generalize dependent (Qnum q / QDen q). generalize dependent (Qnum q mod QDen q).
  generalize (Qnum q). generalize (QDen q).
  intros D N r Hb f Hdm. subst N.
  assert (E0 : f * D - (D * f + r) = - r) by ring.
  assert (E1 : (f + 1) * D - (D * f + r) = D - r) by ring.
  destruct (Z.compare_spec (2 * r) D) as [C|C|C].
  - destruct (Z.even f); rewrite ?E0, ?E1; lia.
  - rewrite E0. lia.
  - rewrite E1. lia.
Qed.

(** The rounding to an integer is within a half. *)
Lemma round_half_even_near q : (Qabs (inject_Z (round_half_even q) - q) <= 1 # 2)%Q.
Proof.
  pose proof (round_half_even_error q) as H.
  destruct q as [N D]. cbn [Qnum Qden] in H.
  unfold Qle, Qabs, Qminus, Qplus, Qopp, inject_Z. cbn [Qnum Qden].
  replace (round_half_even (N # D) * Z.pos D + - N * 1)
    with (round_half_even (N # D) * Z.pos D - N) by ring.
  rewrite Pos.mul_1_l. lia.
Qed.

Lemma two_pow_pos e : (0 < 2 ^ e)%Q.
Proof. apply Qpower_0_lt. reflexivity. Qed.

(** A positive rational is at least the power of two that the logarithms of
    its numerator and denominator give, less one. *)
Lemma log2_lower_bound (a : Z) (d : positive) :
  0 < a -> (2 ^ (Z.log2 a - Z.log2 (Z.pos d) - 1) <= a # d)%Q.
Proof.
  intros Ha.
  pose proof (Z.log2_spec a Ha) as [La _].
  pose proof (Z.log2_spec (Z.pos d) ltac:(lia)) as [_ Ld].
  pose proof (Z.log2_nonneg a) as Na.
  pose proof (Z.log2_nonneg (Z.pos d)) as Nd.
  replace (Z.log2 a - Z.log2 (Z.pos d) - 1)
    with (Z.log2 a + - Z.succ (Z.log2 (Z.pos d))) by lia.
  rewrite Qpower_plus by discriminate. rewrite Qpower_opp.
  rewrite <- (Zpower_Qpower 2 (Z.log2 a)) by lia.
  rewrite <- (Zpower_Qpower 2 (Z.succ (Z.log2 (Z.pos d)))) by lia.
  set (A := 2 ^ Z.log2 a) in *. set (B := 2 ^ Z.succ (Z.log2 (Z.pos d))) in *.
  assert (HA : 0 < A) by (apply Z.pow_pos_nonneg; lia).
  assert (HB : 0 < B) by lia.
  apply Qle_shift_div_r.
  - change 0%Q with (inject_Z 0). rewrite <- Zlt_Qlt. exact HB.
  - unfold Qle, Qmult, inject_Z. cbn [Qnum Qden]. nia.
Qed.

(** The exponent [fl] picks puts [2^52] under the scaled magnitude. *)
Lemma fl_exponent (x : Q) :
  (0 < x)%Q ->
  let k := Z.log2 (Qnum x) - Z.log2 (QDen x) in
  let e := (if Qle_bool (2 ^ k) x then k else k - 1) - 52 in
  (2 ^ (e + 52) <= x)%Q.
Proof.
  intros Hx k e. subst e.
  destruct (Qle_bool (2 ^ k) x) eqn:T.
  - replace (k - 52 + 52) with k by lia. now apply Qle_bool_iff.
  - replace (k - 1 - 52 + 52) with (k - 1) by lia. subst k.
    destruct x as [a d]. apply log2_lower_bound.
    unfold Qlt in Hx. cbn in Hx. lia.
Qed.

(** The relative error of a rounding is at most [2^-53]. *)
Lemma fl_error q : (Qabs (fl q - q) <= Qabs q * (1 # 9007199254740992))%Q.
Proof.
  unfold fl. destruct (Qnum q =? 0) eqn:E0.
  - apply Z.eqb_eq in E0. destruct q as [n d]. cbn in E0. subst n.
    unfold Qle, Qabs, Qminus, Qplus, Qopp, Qmult. cbn. lia.
  - apply Z.eqb_neq in E0. cbv zeta. rewrite Qred_correct.
    assert (Hx : (0 < Qabs q)%Q).
    { destruct q as [n d]. cbn in E0. unfold Qlt, Qabs. cbn. lia. }
    pose proof (fl_exponent (Qabs q) Hx) as He. cbv zeta in He.
    set (e := (if Qle_bool (2 ^ (Z.log2 (Qnum (Qabs q)) - Z.log2 (QDen (Qabs q)))) (Qabs q)
               then Z.log2 (Qnum (Qabs q)) - Z.log2 (QDen (Qabs q))
               else Z.log2 (Qnum (Qabs q)) - Z.log2 (QDen (Qabs q)) - 1) - 52) in *.
    set (s := (Qabs q * 2 ^ (- e))%Q).
    pose proof (round_half_even_near s) as Hm.
    set (m := round_half_even s) in *.
    pose proof (two_pow_pos e) as Hp.
    assert (Hinv : (2 ^ (- e) * 2 ^ e == 1)%Q).
    { rewrite Qpower_opp. field. intros F. rewrite F in Hp. discriminate. }
    assert (Hq : (q == inject_Z (Z.sgn (Qnum q)) * (s * 2 ^ e))%Q).
    { unfold s. rewrite <- Qmult_assoc, Hinv, Qmult_1_r.
      destruct q as [n d]. unfold Qeq, Qabs, Qmult, inject_Z. cbn.
      rewrite <- Z.mul_assoc, (Z.mul_assoc (Z.sgn n)), <- Z.abs_sgn. lia. }
    assert (Hdiff : (inject_Z (Z.sgn (Qnum q) * m) * 2 ^ e - q
                     == inject_Z (Z.sgn (Qnum q)) * ((inject_Z m - s) * 2 ^ e))%Q).
    { rewrite Hq at 2. rewrite inject_Z_mult. ring. }
    rewrite Hdiff, !Qabs_Qmult.
    assert (Hsgn : (Qabs (inject_Z (Z.sgn (Qnum q))) == 1)%Q).
    { destruct q as [n d]. cbn in E0 |- *. unfold Qabs, inject_Z, Qeq. cbn.
      destruct n; cbn; lia. }
    rewrite Hsgn, Qmult_1_l, (Qabs_pos (2 ^ e)) by (apply Qlt_le_weak, Hp).
    assert (Hpow : (2 ^ (e + 52) == 2 ^ e * (4503599627370496 # 1))%Q).
    { rewrite Qpower_plus by discriminate. reflexivity. }
    rewrite Hpow in He.
    apply Qle_trans with ((1 # 2) * 2 ^ e)%Q.
    + apply Qmult_le_compat_r; [exact Hm | apply Qlt_le_weak, Hp].
    + lra.
Qed.

(** Rounding keeps a number that is not negative so. *)
Lemma fl_nonneg q : (0 <= q)%Q -> (0 <= fl q)%Q.
Proof.
  intros H. pose proof (fl_error q) as E.
  rewrite (Qabs_pos q H) in E. apply Qabs_Qle_condition in E. lra.
Qed.

Lemma hours_between_nonneg a b : a <= b -> (0 <= hours_between a b)%Q.
Proof.
  intros H. unfold hours_between, total_seconds.
  apply fl_nonneg. apply Qle_shift_div_l; [reflexivity|].
  rewrite Qmult_0_l. apply fl_nonneg. unfold Qle. cbn. lia.
Qed.

(** The two roundings of [total_seconds() / 3600] leave the duration
    within [2^-51] of the exact number of hours, relatively. *)
Lemma hours_between_error a b :
  a <= b ->
  (Qabs (hours_between a b - ((b - a) # 3600000000))
   <= ((b - a) # 3600000000) * (1 # 2251799813685248))%Q.
Proof.
  intros H. unfold hours_between, total_seconds.
  assert (H1 : (0 <= (b - a) # 1000000)%Q) by (unfold Qle; cbn; lia).
  pose proof (fl_error ((b - a) # 1000000)) as E1.
  rewrite (Qabs_pos _ H1) in E1. apply Qabs_Qle_condition in E1.
  pose proof (fl_nonneg _ H1) as N1.
  set (r1 := fl ((b - a) # 1000000)) in *.
  assert (H2 : (0 <= r1 / 3600)%Q).
  { apply Qle_shift_div_l; [reflexivity|]. now rewrite Qmult_0_l. }
  pose proof (fl_error (r1 / 3600)) as E2.
  rewrite (Qabs_pos _ H2) in E2. apply Qabs_Qle_condition in E2.
  set (r2 := fl (r1 / 3600)) in *.
  assert (Hh : ((b - a) # 3600000000 == ((b - a) # 1000000) / 3600)%Q).
  { unfold Qeq, Qdiv, Qmult, Qinv. cbn. lia. }
  rewrite Hh. set (q1 := (b - a) # 1000000) in *.
  clearbody r2. clearbody r1. clearbody q1.
  unfold Qdiv in *. change (/ 3600)%Q with (1 # 3600)%Q in *.
  apply Qabs_Qle_condition. lra.
Qed.

(** ** The reducer: the scan *)

Section ReducerFacts.

Variable config : Config.

Let REWORK := LABEL_REWORK config.
Let IN_REVIEW := LABEL_IN_REVIEW config.
Let DONE := LABEL_REWORK_DONE config.

Ltac scan_cases a ev :=
  unfold scan_event, is_add;
  destruct (ev_created_at ev) eqn:?; cbn [fromisoformat rbind];
  destruct (ev_label ev) as [label_name|] eqn:?;
  destruct (ev_action ev =? "add")%string eqn:?; cbn [andb];
  try destruct (label_name =? LABEL_REWORK config)%string eqn:?;
  try destruct (label_name =? LABEL_IN_REVIEW config)%string eqn:?;
  try destruct (label_name =? LABEL_REWORK_DONE config)%string eqn:?;
  destruct (rework_added a) eqn:?;
  destruct (in_review_added a) eqn:?;
  destruct (rework_done_added a) eqn:?;
  cbn [andb is_unset].

(** A dated event never makes the scan raise. *)
Lemma scan_event_total a ev :
  timestamped ev -> exists a', scan_event config a ev = Ok a'.
Proof.
  intros [t Ht]. unfold scan_event. rewrite Ht. cbn [fromisoformat rbind].
  destruct (ev_label ev); [|eauto].
  destruct (ev_action ev =? "add")%string; [|eauto].
  repeat match goal with |- context [if ?b then _ else _] => destruct b end; eauto.
Qed.

Lemma scan_events_total events : forall a,
  Forall timestamped events -> exists a', scan_events config a events = Ok a'.
Proof.
  induction events as [|ev rest IH]; intros a Hwf; cbn [scan_events].
  - eauto.
  - inversion Hwf as [|? ? Hev Hrest]; subst.
    destruct (scan_event_total a ev Hev) as [a1 H1]. rewrite H1. cbn [rbind].
    apply IH; assumption.
Qed.

(** The rework date is the first add of the rework label. *)
Lemma scan_event_rework a ev a' :
  scan_event config a ev = Ok a' ->
  rework_added a' =
    or_first (rework_added a)
      (if is_add REWORK ev
       then match ev_created_at ev with Iso t => Some t | _ => None end
       else None).
Proof.
  subst REWORK. scan_cases a ev; intros H; inversion H; subst; cbn;
    try congruence; try reflexivity.
Qed.

Lemma scan_events_rework events : forall a a',
  scan_events config a events = Ok a' ->
  rework_added a' = or_first (rework_added a) (first_add REWORK events).
Proof.
  induction events as [|ev rest IH]; intros a a' H; cbn [scan_events] in H.
  - inversion H; subst. destruct (rework_added a'); reflexivity.
  - destruct (scan_event config a ev) as [a1|e] eqn:H1; cbn [rbind] in H; [|discriminate].
    rewrite (IH _ _ H), (scan_event_rework _ _ _ H1). cbn [first_add].
    destruct (rework_added a); cbn [or_first]; [reflexivity|].
    destruct (is_add REWORK ev) eqn:Hadd; [|reflexivity].
    destruct (ev_created_at ev) eqn:Ht; try reflexivity.
    + unfold scan_event in H1. rewrite Ht in H1. discriminate.
    + unfold scan_event in H1. rewrite Ht in H1. discriminate.
Qed.

(** With a rework_done label that is neither of the two others, the
    rework_done date is the first add of that label. *)
Lemma scan_event_done a ev a' :
  REWORK <> DONE -> IN_REVIEW <> DONE ->
  scan_event config a ev = Ok a' ->
  rework_done_added a' =
    or_first (rework_done_added a)
      (if is_add DONE ev
       then match ev_created_at ev with Iso t => Some t | _ => None end
       else None).
Proof.
  subst REWORK IN_REVIEW DONE. intros Hrd Hid.
  scan_cases a ev; intros H; inversion H; subst; cbn;
    try congruence; try reflexivity;
    repeat match goal with
           | E : (_ =? _)%string = true |- _ => apply String.eqb_eq in E
           end; congruence.
Qed.

Lemma scan_events_done events : forall a a',
  REWORK <> DONE -> IN_REVIEW <> DONE ->
  scan_events config a events = Ok a' ->
  rework_done_added a' = or_first (rework_done_added a) (first_add DONE events).
Proof.
  induction events as [|ev rest IH]; intros a a' Hrd Hid H; cbn [scan_events] in H.
  - inversion H; subst. destruct (rework_done_added a'); reflexivity.
  - destruct (scan_event config a ev) as [a1|e] eqn:H1; cbn [rbind] in H; [|discriminate].
    rewrite (IH _ _ Hrd Hid H), (scan_event_done _ _ _ Hrd Hid H1). cbn [first_add].
    destruct (rework_done_added a); cbn [or_first]; [reflexivity|].
    destruct (is_add DONE ev) eqn:Hadd; [|reflexivity].
    destruct (ev_created_at ev) eqn:Ht; try reflexivity.
    + unfold scan_event in H1. rewrite Ht in H1. discriminate.
    + unfold scan_event in H1. rewrite Ht in H1. discriminate.
Qed.

(** Every recorded date is the date of an add of its label. *)
Lemma scan_event_origin a ev a' :
  scan_event config a ev = Ok a' ->
  (forall t, rework_added a' = Some t ->
     rework_added a = Some t \/ (is_add REWORK ev = true /\ ev_created_at ev = Iso t))
  /\ (forall t, in_review_added a' = Some t ->
     in_review_added a = Some t \/ (is_add IN_REVIEW ev = true /\ ev_created_at ev = Iso t))
  /\ (forall t, rework_done_added a' = Some t ->
     rework_done_added a = Some t \/ (is_add DONE ev = true /\ ev_created_at ev = Iso t)).
Proof.
  subst REWORK IN_REVIEW DONE.
  scan_cases a ev; intros H; inversion H; subst; cbn;
    repeat split; intros t Ht; try (inversion Ht; subst); auto; try congruence.
Qed.

Lemma scan_events_origin events : forall a a',
  scan_events config a events = Ok a' ->
  (forall t, rework_added a' = Some t ->
     rework_added a = Some t \/ add_at REWORK t events)
  /\ (forall t, in_review_added a' = Some t ->
     in_review_added a = Some t \/ add_at IN_REVIEW t events)
  /\ (forall t, rework_done_added a' = Some t ->
     rework_done_added a = Some t \/ add_at DONE t events).
Proof.
  induction events as [|ev rest IH]; intros a a' H; cbn [scan_events] in H.
  - inversion H; subst. repeat split; auto.
  - destruct (scan_event config a ev) as [a1|e] eqn:H1; cbn [rbind] in H; [|discriminate].
    destruct (IH _ _ H) as (Ir & Ii & Id).
    destruct (scan_event_origin _ _ _ H1) as (Sr & Si & Sd).
    assert (Hlift : forall label t, add_at label t rest -> add_at label t (ev :: rest)).
    { intros label t (e0 & Hin & Ha & Ht). exists e0. repeat split; auto. now right. }
    assert (Hhere : forall label t, is_add label ev = true /\ ev_created_at ev = Iso t ->
                                    add_at label t (ev :: rest)).
    { intros label t [Ha Ht]. exists ev. repeat split; auto. now left. }
    repeat split; intros t Ht.
    + destruct (Ir t Ht) as [Hr|Hr]; [|right; eauto].
      destruct (Sr t Hr); [now left | right; eauto].
    + destruct (Ii t Ht) as [Hr|Hr]; [|right; eauto].
      destruct (Si t Hr); [now left | right; eauto].
    + destruct (Id t Ht) as [Hr|Hr]; [|right; eauto].
      destruct (Sd t Hr); [now left | right; eauto].
Qed.

End ReducerFacts.

(** Remove events play no part in [first_add], and what comes after the
    first add of a label does not either. *)
Lemma first_add_ignores_removes label events :
  first_add label (filter (fun ev => (ev_action ev =? "add")%string) events)
  = first_add label events.
Proof.
  induction events as [|ev rest IH]; [reflexivity|].
  cbn [filter first_add]. unfold is_add at 1.
  destruct (ev_action ev =? "add")%string eqn:Hact; cbn [andb].
  - cbn [first_add]. unfold is_add at 1. rewrite Hact. cbn [andb]. rewrite IH. reflexivity.
  - exact IH.
Qed.

Lemma first_add_later label events later t :
  first_add label events = Some t -> first_add label (events ++ later) = Some t.
Proof.
  induction events as [|ev rest IH]; cbn [first_add app]; [discriminate|].
  destruct (is_add label ev); auto.
Qed.

(** The time in rework is the gap between the two first adds. *)
Lemma rework_gap
    (config : Config) (created : IsoField) (events : list LabelEvent) (now T1 T2 : Z) :
  LABEL_IN_REVIEW config <> LABEL_REWORK_DONE config ->
  Forall timestamped events ->
  (exists c, created = Iso c) ->
  first_add (LABEL_REWORK config) events = Some T1 ->
  first_add (LABEL_REWORK_DONE config) events = Some T2 ->
  T1 < T2 ->
  exists review complete,
    time_in_state config created events now
      = Ok (Some (hours_between T1 T2), review, complete).
Proof.
  intros Hid Hwf [c Hc] H1 H2 Hlt.
  assert (Hrd : LABEL_REWORK config <> LABEL_REWORK_DONE config).
  { intros E. rewrite E in H1. rewrite H1 in H2. inversion H2. lia. }
  destruct (scan_events_total config events no_added Hwf) as [a Ha].
  pose proof (scan_events_rework config events _ _ Ha) as Hr.
  pose proof (scan_events_done config events _ _ Hrd Hid Ha) as Hd.
  cbn [no_added rework_added rework_done_added or_first] in Hr, Hd.
  rewrite H1 in Hr. rewrite H2 in Hd.
  unfold time_in_state. destruct events as [|ev rest]; [discriminate|].
  subst created. cbn [fromisoformat rbind]. rewrite Ha. cbn [rbind].
  unfold durations. rewrite Hr, Hd.
  eexists. eexists. reflexivity.
Qed.

(** C1.  In a log of dated events whose first add of the rework label is at
    [T1] and whose first add of the rework_done label is at [T2 > T1], the
    reducer returns as time in rework the float [(T2 - T1).total_seconds() /
    3600]: the exact difference of the two dates, in hours, within the
    rounding of the two float divisions (at most [2^-51] of the value).  The
    log is otherwise arbitrary;
    in particular the value is the same for the log without its remove
    events and for the log followed by any further dated events.  The
    in_review and rework_done labels of the configuration are two names. *)
Theorem time_in_rework_between_first_adds
    (config : Config) (created : IsoField) (events : list LabelEvent) (now T1 T2 : Z) :
  LABEL_IN_REVIEW config <> LABEL_REWORK_DONE config ->
  Forall timestamped events ->
  (exists c, created = Iso c) ->
  first_add (LABEL_REWORK config) events = Some T1 ->
  first_add (LABEL_REWORK_DONE config) events = Some T2 ->
  T1 < T2 ->
  (exists review complete,
     time_in_state config created events now
       = Ok (Some (hours_between T1 T2), review, complete))
  /\ (Qabs (hours_between T1 T2 - ((T2 - T1) # 3600000000))
      <= ((T2 - T1) # 3600000000) * (1 # 2251799813685248))%Q
  /\ (exists review complete,
       time_in_state config created
         (filter (fun ev => (ev_action ev =? "add")%string) events) now
       = Ok (Some (hours_between T1 T2), review, complete))
  /\ (forall later, Forall timestamped later ->
       exists review complete,
         time_in_state config created (events ++ later) now
         = Ok (Some (hours_between T1 T2), review, complete)).
Proof.
  intros Hid Hwf Hc H1 H2 Hlt.
  split; [now apply rework_gap|].
  split; [apply hours_between_error; lia|].
  split.
  - apply rework_gap; try assumption.
    + rewrite Forall_forall in *. intros ev Hin. apply filter_In in Hin. now apply Hwf.
    + now rewrite first_add_ignores_removes.
    + now rewrite first_add_ignores_removes.
  - intros later Hlater. apply rework_gap; try assumption.
    + apply Forall_app. now split.
    + now apply first_add_later.
    + now apply first_add_later.
Qed.

Lemma time_in_rework_between_first_adds_witness :
  exists review complete,
    time_in_state sample_config (Iso 0) busy_log (9 * hour)
      = Ok (Some 2%Q, review, complete).
Proof.
  destruct (time_in_rework_between_first_adds sample_config (Iso 0) busy_log
              (9 * hour) (1 * hour) (3 * hour)) as (Hmain & _).
  - discriminate.
  - repeat constructor; eexists; reflexivity.
  - eexists; reflexivity.
  - reflexivity.
  - reflexivity.
  - reflexivity.
  - exact Hmain.
Defined.

(** C4.  A log of dated events without any add of the rework_done label gives
    no time in rework and no time to complete, whatever it holds about the
    two other labels. *)
Theorem no_rework_done_add_no_completion
    (config : Config) (created : IsoField) (events : list LabelEvent) (now : Z) :
  Forall timestamped events ->
  (exists c, created = Iso c) ->
  Forall (fun ev => is_add (LABEL_REWORK_DONE config) ev = false) events ->
  exists review, time_in_state config created events now = Ok (None, review, None).
Proof.
  intros Hwf [c Hc] Hnone.
  unfold time_in_state. destruct events as [|ev rest]; [eauto|].
  subst created. cbn [fromisoformat rbind].
  destruct (scan_events_total config (ev :: rest) no_added Hwf) as [a Ha].
  rewrite Ha. cbn [rbind].
  destruct (scan_events_origin config _ _ _ Ha) as (_ & _ & Hd).
  assert (Hnd : rework_done_added a = None).
  { destruct (rework_done_added a) as [t|] eqn:E; [|reflexivity].
    destruct (Hd t eq_refl) as [H|(e0 & Hin & Hadd & _)]; [discriminate|].
    rewrite Forall_forall in Hnone. rewrite (Hnone e0 Hin) in Hadd. discriminate. }
  unfold durations. rewrite Hnd.
  destruct (rework_added a); eauto.
Qed.

Lemma no_rework_done_add_no_completion_witness :
  exists review,
    time_in_state sample_config (Iso 0) open_log (9 * hour) = Ok (None, review, None).
Proof.
  apply (no_rework_done_add_no_completion sample_config (Iso 0) open_log (9 * hour)).
  - repeat constructor; eexists; reflexivity.
  - eexists; reflexivity.
  - repeat constructor.
Defined.

(** ** The collector returns what [collected] computes *)

Lemma only_calls_refl st : only_calls st st.
Proof. unfold only_calls. repeat split. exists []. reflexivity. Qed.

Lemma only_calls_trans st1 st2 st3 :
  only_calls st1 st2 -> only_calls st2 st3 -> only_calls st1 st3.
Proof.
  intros (c1 & a1 & o1 & l1 & e1) (c2 & a2 & o2 & l2 & e2).
  unfold only_calls. repeat split; try congruence.
  exists (l2 ++ l1). rewrite e2, e1. apply app_assoc.
Qed.

Lemma runs_as_ret {A} (a : A) : runs_as (ret a) (Ok a).
Proof. intros st. exists st. split; [reflexivity | apply only_calls_refl]. Qed.

Lemma runs_as_lift {A} (r : Result A) : runs_as (lift r) r.
Proof. intros st. exists st. split; [reflexivity | apply only_calls_refl]. Qed.

Lemma runs_as_bind {A B} (m : M A) (k : A -> M B) r (kr : A -> Result B) :
  runs_as m r -> (forall a, runs_as (k a) (kr a)) ->
  runs_as (bind m k) (rbind r kr).
Proof.
  intros Hm Hk st. destruct (Hm st) as (st1 & E1 & O1).
  unfold bind. rewrite E1. destruct r as [a|e]; cbn [rbind].
  - destruct (Hk a st1) as (st2 & E2 & O2). exists st2. split; [exact E2|].
    eapply only_calls_trans; eassumption.
  - exists st1. split; [reflexivity | exact O1].
Qed.

Lemma runs_as_gitlab_api {A} endpoint (response : option (list A)) :
  runs_as (gitlab_api endpoint response) (Ok (get_default response [])).
Proof.
  intros st. exists (log_call endpoint st). split.
  - unfold gitlab_api. destruct response; reflexivity.
  - unfold only_calls, log_call. cbn. repeat split. exists [endpoint]. reflexivity.
Qed.

Lemma runs_as_for_each {A S} (body : S -> A -> M S) (f : S -> A -> Result S) xs :
  (forall acc x, runs_as (body acc x) (f acc x)) ->
  forall acc, runs_as (for_each body acc xs) (rfold f acc xs).
Proof.
  intros Hbody. induction xs as [|x rest IH]; intros acc; cbn [for_each rfold].
  - apply runs_as_ret.
  - apply runs_as_bind; [apply Hbody | exact IH].
Qed.

Section CollectorRuns.

Variable config : Config.
Variable env : Env.

Lemma runs_as_find_project projects repo_name :
  runs_as (find_project env projects repo_name)
          (Ok (projects ++ resolved_project env repo_name)).
Proof.
  unfold find_project, resolved_project.
  change (Ok (projects ++
                match match_project (get_default (search_projects env repo_name) []) repo_name with
                | Some proj => [proj] | None => [] end))
    with (rbind (Ok (get_default (search_projects env repo_name) []))
            (fun result => Ok (projects ++
               match match_project result repo_name with
               | Some proj => [proj] | None => [] end))).
  apply runs_as_bind; [apply runs_as_gitlab_api|].
  intros result. destruct (match_project result repo_name).
  - apply runs_as_ret.
  - rewrite app_nil_r. apply runs_as_ret.
Qed.

Lemma rfold_resolved names : forall projects,
  rfold (fun ps r => Ok (ps ++ resolved_project env r)) projects names
  = Ok (projects ++ flat_map (resolved_project env) names).
Proof.
  induction names as [|r rest IH]; intros projects; cbn [rfold flat_map rbind].
  - now rewrite app_nil_r.
  - rewrite IH, app_assoc. reflexivity.
Qed.

Lemma runs_as_get_all_projects :
  runs_as (get_all_projects config env) (Ok (resolved_projects config env)).
Proof.
  unfold get_all_projects, resolved_projects.
  rewrite <- (app_nil_l (flat_map _ _)), <- rfold_resolved.
  apply runs_as_for_each. intros acc x. apply runs_as_find_project.
Qed.

Lemma runs_as_calculate mr project_id :
  runs_as (calculate_time_in_state config env mr project_id)
          (reduce_item config env project_id mr).
Proof.
  unfold calculate_time_in_state, reduce_item, get_mr_label_events.
  change (time_in_state config (mr_created_at mr)
            (get_default (label_events env project_id (mr_iid mr)) [])
            (datetime_now env project_id (mr_iid mr)))
    with (rbind (Ok (get_default (label_events env project_id (mr_iid mr)) []))
            (fun events => time_in_state config (mr_created_at mr) events
                             (datetime_now env project_id (mr_iid mr)))).
  apply runs_as_bind; [apply runs_as_gitlab_api|].
  intros events. apply runs_as_lift.
Qed.

Lemma runs_as_process_mr project_name project_id acc mr :
  runs_as (process_mr config env project_name project_id acc mr)
          (item_step config env project_name project_id acc mr).
Proof.
  unfold process_mr, item_step.
  apply runs_as_bind; [apply runs_as_calculate|].
  intros timing. apply runs_as_ret.
Qed.

Lemma runs_as_process_project acc project :
  runs_as (process_project config env acc project)
          (project_step config env acc project).
Proof.
  unfold process_project, project_step, get_merge_requests, fetched_mrs.
  match goal with
  | |- runs_as _ (rfold ?f ?a (get_default ?r [])) =>
      change (rfold f a (get_default r []))
        with (rbind (Ok (get_default r [])) (fun mrs => rfold f a mrs))
  end.
  apply runs_as_bind; [apply runs_as_gitlab_api|].
  intros mrs. apply runs_as_for_each.
  intros acc' mr. apply runs_as_process_mr.
Qed.

(** The collector is [collected], and touches nothing but the call log. *)
Lemma runs_as_collect : runs_as (collect config env) (collected config env).
Proof.
  unfold collect, collected.
  match goal with
  | |- runs_as _ (rfold ?f ?a ?ps) =>
      change (rfold f a ps) with (rbind (Ok ps) (fun ps' => rfold f a ps'))
  end.
  apply runs_as_bind; [apply runs_as_get_all_projects|].
  intros projects. apply runs_as_for_each.
  intros acc project. apply runs_as_process_project.
Qed.

End CollectorRuns.

(** ** The collector always returns on dated data *)

Lemma rfold_total {A S} (f : S -> A -> Result S) xs :
  (forall acc x, In x xs -> exists acc', f acc x = Ok acc') ->
  forall acc, exists acc', rfold f acc xs = Ok acc'.
Proof.
  induction xs as [|x rest IH]; intros Hf acc; cbn [rfold].
  - eauto.
  - destruct (Hf acc x (or_introl eq_refl)) as [acc1 E1]. rewrite E1. cbn [rbind].
    apply IH. intros acc0 y Hy. apply Hf. now right.
Qed.

Lemma time_in_state_total config created events now :
  Forall timestamped events -> (exists c, created = Iso c) ->
  exists timing, time_in_state config created events now = Ok timing.
Proof.
  intros Hwf [c Hc]. unfold time_in_state. destruct events as [|ev rest]; [eauto|].
  subst created. cbn [fromisoformat rbind].
  destruct (scan_events_total config (ev :: rest) no_added Hwf) as [a Ha].
  rewrite Ha. cbn [rbind]. eauto.
Qed.

Lemma reduce_item_total config env project_id mrs mr :
  env_dated env -> merge_requests env project_id = Some mrs -> In mr mrs ->
  exists timing, reduce_item config env project_id mr = Ok timing.
Proof.
  intros Hd Hm Hin. destruct (Hd _ _ _ Hm Hin) as [Hc He].
  unfold reduce_item. apply time_in_state_total; [|exact Hc].
  destruct (label_events env project_id (mr_iid mr)) as [events|] eqn:E; cbn [get_default].
  - apply He. reflexivity.
  - constructor.
Qed.

Lemma project_step_total config env acc project :
  env_dated env -> exists acc', project_step config env acc project = Ok acc'.
Proof.
  intros Hd. unfold project_step. apply rfold_total.
  intros acc0 mr Hin. unfold item_step, fetched_mrs in *.
  destruct (merge_requests env (proj_id project)) as [mrs|] eqn:E; cbn [get_default] in Hin.
  - destruct (reduce_item_total config env _ _ _ Hd E Hin) as [t Ht].
    rewrite Ht. cbn [rbind]. eauto.
  - destruct Hin.
Qed.

Lemma collected_total config env :
  env_dated env -> exists acc, collected config env = Ok acc.
Proof.
  intros Hd. unfold collected. apply rfold_total.
  intros acc project _. apply project_step_total. exact Hd.
Qed.

(** ** The cache *)

Lemma Qlt_bool_iff x y : Qlt_bool x y = true <-> (x < y)%Q.
Proof.
  unfold Qlt_bool. rewrite negb_true_iff. split.
  - intros H. apply Qnot_le_lt. intros Hle. apply Qle_bool_iff in Hle. congruence.
  - intros H. destruct (Qle_bool y x) eqn:E; [|reflexivity].
    apply Qle_bool_iff in E. exfalso. exact (Qlt_not_le _ _ H E).
Qed.

Lemma Qlt_bool_false x y : Qlt_bool x y = false <-> ~ (x < y)%Q.
Proof.
  rewrite <- Qlt_bool_iff. destruct (Qlt_bool x y); split; congruence.
Qed.

(** A scrape inside the window: the stored data, and the state as it was. *)
Lemma collect_metrics_fresh config env now st :
  (fl (now - last_update (metrics_cache st)) < 10)%Q ->
  collect_metrics config env now st = (Ok (data (metrics_cache st)), st).
Proof.
  intros H. apply Qlt_bool_iff in H.
  unfold collect_metrics, bind, get_cache. rewrite H. reflexivity.
Qed.

(** A scrape outside the window, when the collection returns [acc]. *)
Lemma collect_metrics_stale config env now st acc st_c :
  ~ (fl (now - last_update (metrics_cache st)) < 10)%Q ->
  collect config env st = (Ok acc, st_c) ->
  collect_metrics config env now st = alert_and_store config env now acc st_c.
Proof.
  intros H Hc. apply Qlt_bool_false in H.
  unfold collect_metrics, bind at 1, get_cache. rewrite H.
  unfold bind. rewrite Hc. reflexivity.
Qed.

Lemma alert_and_store_run config env now acc st :
  exists st',
    alert_and_store config env now acc st
      = (Ok (Collected (acc_metrics acc) (acc_branch_metrics acc)), st')
    /\ metrics_cache st'
       = mkCache now (Collected (acc_metrics acc) (acc_branch_metrics acc))
                 (Some (List.length (acc_rework_mrs acc)))
    /\ api_calls st' = api_calls st
    /\ alert_calls st'
       = if should_alert (metrics_cache st) (acc_rework_mrs acc)
         then mkEmail alert_subject (alert_body (acc_rework_mrs acc)) :: alert_calls st
         else alert_calls st.
Proof.
  unfold alert_and_store, bind, get_cache, put_cache, send_email_alert, ret.
  destruct (should_alert (metrics_cache st) (acc_rework_mrs acc)); cbn;
    eexists; repeat split.
Qed.

Lemma should_alert_iff cache rework_list :
  should_alert cache rework_list = true
  <-> (get_default (last_rework_count cache) 0 < List.length rework_list)%nat.
Proof.
  unfold should_alert. destruct rework_list as [|x rest].
  - cbn. split; [discriminate | lia].
  - apply Nat.ltb_lt.
Qed.

Lemma sample_env_dated mrs events :
  Forall (fun mr => (exists c, mr_created_at mr = Iso c)
                    /\ forall evs, events (mr_iid mr) = Some evs -> Forall timestamped evs)
         mrs ->
  env_dated (sample_env mrs events).
Proof.
  intros H project_id mrs' mr E Hin. cbn in E. inversion E; subst mrs'.
  rewrite Forall_forall in H. exact (H mr Hin).
Qed.

Lemma cycle_env_dated k : env_dated (cycle_env k).
Proof.
  apply sample_env_dated. apply Forall_forall. intros mr Hin.
  unfold rework_mrs_upto in Hin. apply in_map_iff in Hin. destruct Hin as (i & <- & _).
  split.
  - eexists. reflexivity.
  - intros evs E. inversion E. constructor.
Qed.

(** C2.  A scrape whose clock is within 10 seconds of the last refresh
    returns the stored snapshot and leaves the whole state as it was, call
    log included: no upstream call is made.  A scrape outside the window runs
    the collector (on dated upstream data it returns), stores its snapshot
    and the clock, and a second scrape within 10 seconds of that one returns
    the same snapshot from an unchanged state, whatever the upstream has
    become. *)
Theorem cache_freshness_window
    (config : Config) (env : Env) (now : Q) (st : State) :
  ((fl (now - last_update (metrics_cache st)) < 10)%Q ->
     collect_metrics config env now st = (Ok (data (metrics_cache st)), st))
  /\ (~ (fl (now - last_update (metrics_cache st)) < 10)%Q -> env_dated env ->
      exists acc st_c st',
        collect config env st = (Ok acc, st_c)
        /\ collect_metrics config env now st
           = (Ok (Collected (acc_metrics acc) (acc_branch_metrics acc)), st')
        /\ data (metrics_cache st') = Collected (acc_metrics acc) (acc_branch_metrics acc)
        /\ last_update (metrics_cache st') = now
        /\ api_calls st' = api_calls st_c
        /\ forall env2 now2, (fl (now2 - now) < 10)%Q ->
             collect_metrics config env2 now2 st'
             = (Ok (Collected (acc_metrics acc) (acc_branch_metrics acc)), st')).
Proof.
  split; [apply collect_metrics_fresh|].
  intros Hstale Hd.
  destruct (collected_total config env Hd) as [acc Hacc].
  destruct (runs_as_collect config env st) as (st_c & Hc & _).
  rewrite Hacc in Hc.
  destruct (alert_and_store_run config env now acc st_c) as (st' & Hrun & Hcache & Hcalls & _).
  exists acc, st_c, st'.
  rewrite (collect_metrics_stale _ _ _ _ _ _ Hstale Hc).
  repeat split; try assumption; try (rewrite Hcache; reflexivity).
  intros env2 now2 Hin.
  rewrite collect_metrics_fresh; rewrite Hcache; [reflexivity | exact Hin].
Qed.

Lemma cache_freshness_window_witness :
  collect_metrics sample_config (cycle_env 2) 100 warm_state
    = (Ok (data (metrics_cache warm_state)), warm_state)
  /\ exists acc st_c st',
       collect sample_config (cycle_env 2) initial_state = (Ok acc, st_c)
       /\ collect_metrics sample_config (cycle_env 2) 100 initial_state
          = (Ok (Collected (acc_metrics acc) (acc_branch_metrics acc)), st')
       /\ data (metrics_cache st') = Collected (acc_metrics acc) (acc_branch_metrics acc)
       /\ last_update (metrics_cache st') = 100%Q
       /\ api_calls st' = api_calls st_c
       /\ forall env2 now2, (fl (now2 - 100) < 10)%Q ->
            collect_metrics sample_config env2 now2 st'
            = (Ok (Collected (acc_metrics acc) (acc_branch_metrics acc)), st').
Proof.
  split.
  - apply (proj1 (cache_freshness_window sample_config (cycle_env 2) 100 warm_state)).
    reflexivity.
  - apply (proj2 (cache_freshness_window sample_config (cycle_env 2) 100 initial_state)).
    + intros H. vm_compute in H. discriminate.
    + apply cycle_env_dated.
Defined.

(** ** The renderer: which timing lines a record gets *)

(** Each timing series has one line for the record when its value is
    positive, and none otherwise. *)
Lemma timing_samples (bd : BranchData) :
  samples_of "gitlab_mr_time_in_rework_hours" (branch_lines bd)
    = (if Qlt_bool 0 (bd_time_in_rework bd)
       then [timing_line "gitlab_mr_time_in_rework_hours" bd (bd_time_in_rework bd)]
       else [])
  /\ samples_of "gitlab_mr_time_in_review_hours" (branch_lines bd)
    = (if Qlt_bool 0 (bd_time_in_review bd)
       then [timing_line "gitlab_mr_time_in_review_hours" bd (bd_time_in_review bd)]
       else [])
  /\ samples_of "gitlab_mr_time_to_complete_hours" (branch_lines bd)
    = (if Qlt_bool 0 (bd_time_to_complete bd)
       then [timing_line "gitlab_mr_time_to_complete_hours" bd (bd_time_to_complete bd)]
       else []).
Proof.
  unfold samples_of, branch_lines, timing_line.
  destruct (Qlt_bool 0 (bd_time_in_rework bd));
    destruct (Qlt_bool 0 (bd_time_in_review bd));
    destruct (Qlt_bool 0 (bd_time_to_complete bd));
    repeat split; reflexivity.
Qed.



(** ** Absent and zero *)

Lemma or_zero_blank x : blank x -> or_zero x = 0%Q.
Proof.
  destruct x as [q|]; cbn; [|reflexivity].
  intros H. apply Qeq_bool_iff in H. rewrite H. reflexivity.
Qed.

Lemma or_zero_same_measure x y : same_measure x y -> or_zero x = or_zero y.
Proof.
  intros [-> | [Hx Hy]]; [reflexivity|].
  now rewrite (or_zero_blank x Hx), (or_zero_blank y Hy).
Qed.

(** The claim of C5 fails: an item without event log (three durations
    absent) and an item whose three first adds are at its creation instant
    (time in rework, in review and to complete measured as zero) are answered
    by the same response. *)
Lemma absent_and_zero_render_alike :
  time_in_state sample_config (Iso (1 * hour)) [] (9 * hour) = Ok (None, None, None)
  /\ (exists r v c,
        time_in_state sample_config (Iso (1 * hour)) instant_log (9 * hour)
          = Ok (Some r, Some v, Some c)
        /\ (r == 0)%Q /\ (v == 0)%Q /\ (c == 0)%Q)
  /\ fst (do_GET sample_config (sample_env [plain_mr 1] (fun _ => None))
            "/metrics" 100 initial_state)
     = fst (do_GET sample_config (sample_env [plain_mr 1] (fun _ => Some instant_log))
              "/metrics" 100 initial_state).
Proof.
  split; [reflexivity|]. split.
  - eexists. eexists. eexists. split; [reflexivity|]. repeat split.
  - vm_compute. reflexivity.
Qed.

(** C5, amended.  An empty or unavailable event log gives three absent
    durations.  The per-item record stores an absent duration and a duration
    measured as zero as the same 0, so two items whose durations differ only
    by absent against zero have the same record, and neither gets a line of
    the timing series: the output does not tell them apart. *)
Theorem absent_and_zero_both_omitted
    (config : Config) (project_name : string) (mr : MergeRequest) :
  (forall created now, time_in_state config created [] now = Ok (None, None, None))
  /\ (forall r v c r' v' c',
        same_measure r r' -> same_measure v v' -> same_measure c c' ->
        branch_record config project_name mr (r, v, c)
        = branch_record config project_name mr (r', v', c'))
  /\ (forall r v c,
        (blank r -> samples_of "gitlab_mr_time_in_rework_hours"
                      (branch_lines (branch_record config project_name mr (r, v, c))) = [])
        /\ (blank v -> samples_of "gitlab_mr_time_in_review_hours"
                      (branch_lines (branch_record config project_name mr (r, v, c))) = [])
        /\ (blank c -> samples_of "gitlab_mr_time_to_complete_hours"
                      (branch_lines (branch_record config project_name mr (r, v, c))) = [])).
Proof.
  split; [reflexivity|]. split.
  - intros r v c r' v' c' Hr Hv Hc. unfold branch_record.
    rewrite (or_zero_same_measure _ _ Hr), (or_zero_same_measure _ _ Hv),
            (or_zero_same_measure _ _ Hc). reflexivity.
  - intros r v c.
    destruct (timing_samples (branch_record config project_name mr (r, v, c)))
      as (Hr & Hv & Hc).
    rewrite Hr, Hv, Hc. unfold branch_record. cbn.
    repeat split; intros H; rewrite (or_zero_blank _ H); reflexivity.
Qed.

Lemma absent_and_zero_both_omitted_witness :
  branch_record sample_config "ops/exporter" (plain_mr 1) (Some (0 # 5), None, Some 0%Q)
  = branch_record sample_config "ops/exporter" (plain_mr 1) (None, Some 0%Q, None)
  /\ samples_of "gitlab_mr_time_in_rework_hours"
       (branch_lines (branch_record sample_config "ops/exporter" (plain_mr 1)
                        (Some (0 # 5), None, Some 0%Q))) = [].
Proof.
  destruct (absent_and_zero_both_omitted sample_config "ops/exporter" (plain_mr 1))
    as (_ & Hsame & Hnone).
  split.
  - apply Hsame; right; split; reflexivity.
  - apply (Hnone (Some (0 # 5)) None (Some 0%Q)). reflexivity.
Defined.

(** ** The sign of the durations *)

(** The claim of C7 fails: a rework_done add dated one hour before the
    creation of the item gives a time to complete of minus one hour. *)
Lemma negative_duration_counterexample :
  ~ (forall config created events now r v c,
       time_in_state config created events now = Ok (r, v, c) ->
       absent_or_nonneg r /\ absent_or_nonneg v /\ absent_or_nonneg c).
Proof.
  intros H.
  destruct (H sample_config (Iso (2 * hour)) early_done_log (9 * hour)
              None None (Some (hours_between (2 * hour) (1 * hour))) eq_refl)
    as (_ & _ & Hc).
  vm_compute in Hc. apply Hc. reflexivity.
Qed.

(** ** The counters *)

Lemma dict_get_set_same {V} (d : Dict V) k v : dict_get (dict_set d k v) k = Some v.
Proof.
  induction d as [|[k' v'] rest IH]; cbn.
  - now rewrite String.eqb_refl.
  - destruct (k' =? k)%string eqn:E; cbn.
    + now rewrite String.eqb_refl.
    + now rewrite E.
Qed.

Lemma dict_get_set_other {V} (d : Dict V) k k' v :
  k <> k' -> dict_get (dict_set d k v) k' = dict_get d k'.
Proof.
  intros Hne. induction d as [|[k0 v0] rest IH]; cbn.
  - apply String.eqb_neq in Hne. now rewrite Hne.
  - destruct (k0 =? k)%string eqn:E; cbn.
    + apply String.eqb_eq in E. subst k0.
      apply String.eqb_neq in Hne. now rewrite Hne.
    + destruct (k0 =? k')%string; [reflexivity | exact IH].
Qed.

Lemma dict_get_update_other {V} (dflt : V) d k k' f :
  k <> k' -> dict_get (dict_update dflt d k f) k' = dict_get d k'.
Proof.
  intros Hne. unfold dict_update.
  destruct (dict_get d k); now apply dict_get_set_other.
Qed.

Lemma stats_at_update_same d k f :
  stats_at (dict_update zero_stats d k f) k = f (stats_at d k).
Proof.
  unfold stats_at, dict_update.
  destruct (dict_get d k) eqn:E; rewrite dict_get_set_same; reflexivity.
Qed.

Lemma mem_string_In s l : mem_string s l = true <-> In s l.
Proof.
  unfold mem_string. rewrite existsb_exists. split.
  - intros (x & Hin & E). apply String.eqb_eq in E. now subst.
  - intros Hin. exists s. split; [exact Hin | apply String.eqb_refl].
Qed.

Lemma mem_opt_string_In s l : mem_opt_string s l = true <-> In (Some s) l.
Proof.
  unfold mem_opt_string. rewrite existsb_exists. split.
  - intros ([u|] & Hin & E); [|discriminate]. apply String.eqb_eq in E. now subst.
  - intros Hin. exists (Some s). split; [exact Hin | apply String.eqb_refl].
Qed.

Lemma assigned_to_me_iff config mr :
  assigned_to_me config mr = true
  <-> exists a, In a (mr_assignees mr) /\ username a = Some (before_at (YOUR_EMAIL config)).
Proof.
  unfold assigned_to_me. rewrite mem_opt_string_In, in_map_iff.
  split; intros (a & H1 & H2); exists a; auto.
Qed.

(** [before_at s] is [s] up to its first "@", or [s] when it has none. *)
Lemma before_at_spec s :
  has_at (before_at s) = false
  /\ exists rest, s = (before_at s ++ rest)%string
                  /\ (rest = EmptyString \/ exists r, rest = String "@"%char r).
Proof.
  induction s as [|c s [IH1 (rest & IH2 & IH3)]]; cbn.
  - split; [reflexivity|]. exists EmptyString. auto.
  - destruct (c =? "@")%char eqn:E; cbn.
    + apply Ascii.eqb_eq in E. subst c. split; [reflexivity|].
      exists (String "@"%char s). split; [reflexivity|]. right. eauto.
    + rewrite E, IH1. split; [reflexivity|].
      exists rest. split; [now rewrite <- IH2 | exact IH3].
Qed.

(** What one item does to the counter and to the alert list. *)
Lemma record_mr_assigned config project_name acc mr timing :
  let acc' := record_mr config project_name acc mr timing in
  if mem_string (LABEL_REWORK config) (mr_labels mr) && assigned_to_me config mr
  then assigned_count project_name acc' = S (assigned_count project_name acc)
       /\ acc_rework_mrs acc' = acc_rework_mrs acc ++ [alert_item project_name mr]
  else assigned_count project_name acc' = assigned_count project_name acc
       /\ acc_rework_mrs acc' = acc_rework_mrs acc.
Proof.
  unfold record_mr, count_rework, count_states, assigned_count, alert_item.
  destruct (mem_string (LABEL_REWORK config) (mr_labels mr));
    destruct (assigned_to_me config mr);
    destruct (mem_string (LABEL_IN_REVIEW config) (mr_labels mr));
    destruct (mem_string (LABEL_REWORK_DONE config) (mr_labels mr));
    cbn [andb acc_metrics acc_rework_mrs];
    repeat rewrite stats_at_update_same; split; reflexivity.
Qed.

Section AlertList.

Variable config : Config.
Variable env : Env.

Lemma item_fold_alerts project mrs : forall acc acc',
  rfold (item_step config env (project_name_of project) (proj_id project)) acc mrs = Ok acc' ->
  acc_rework_mrs acc'
  = acc_rework_mrs acc ++ alert_items_of config (map (pair project) mrs).
Proof.
  induction mrs as [|mr mrs IH]; intros acc acc' H; cbn [rfold] in H.
  - inversion H. cbn. now rewrite app_nil_r.
  - unfold item_step at 1 in H.
    destruct (reduce_item config env (proj_id project) mr) as [t|e];
      cbn [rbind] in H; [|discriminate].
    rewrite (IH _ _ H).
    pose proof (record_mr_assigned config (project_name_of project) acc mr t) as Hrec.
    cbv zeta in Hrec. unfold alert_items_of. cbn [map flat_map fst snd]. unfold mine.
    destruct (mem_string (LABEL_REWORK config) (mr_labels mr) && assigned_to_me config mr)%bool;
      destruct Hrec as [_ ->]; [now rewrite <- app_assoc | reflexivity].
Qed.

Lemma project_fold_alerts projects : forall acc acc',
  rfold (project_step config env) acc projects = Ok acc' ->
  acc_rework_mrs acc'
  = acc_rework_mrs acc
    ++ alert_items_of config
         (flat_map (fun project => map (pair project) (fetched_mrs env (proj_id project)))
                   projects).
Proof.
  induction projects as [|project projects IH]; intros acc acc' H; cbn [rfold] in H.
  - inversion H. cbn. now rewrite app_nil_r.
  - destruct (project_step config env acc project) as [acc1|e] eqn:E1;
      cbn [rbind] in H; [|discriminate].
    unfold project_step in E1.
    rewrite (IH _ _ H), (item_fold_alerts _ _ _ _ E1).
    cbn [acc_rework_mrs flat_map]. unfold alert_items_of.
    now rewrite flat_map_app, app_assoc.
Qed.

(** The alert list of a cycle: the items that are [mine], in the order the
    collector meets them. *)
Lemma collected_alert_list acc :
  collected config env = Ok acc ->
  acc_rework_mrs acc = alert_items_of config (work_items config env).
Proof.
  intros H. rewrite (project_fold_alerts _ _ _ H). reflexivity.
Qed.

End AlertList.

(** C10.  An open item that the collector processes adds one to the
    [rework_assigned_to_me] counter of its project and one entry to the alert
    list exactly when the rework label is among its labels and the part of
    the configured address before its first "@" is the username of one of its
    assignees; otherwise it changes neither.  Nothing but usernames is
    compared, and with nothing but that part of the address.  Over a whole
    cycle the alert list is made of these items, in the order they are met. *)
Theorem rework_assigned_to_me_rule
    (config : Config) (env : Env) (project_name : string) (project_id : Z)
    (acc : Acc) (mr : MergeRequest) (st : State) :
  let me := before_at (YOUR_EMAIL config) in
  let is_mine := In (LABEL_REWORK config) (mr_labels mr)
                 /\ exists a, In a (mr_assignees mr) /\ username a = Some me in
  (has_at me = false
   /\ exists rest, YOUR_EMAIL config = (me ++ rest)%string
                   /\ (rest = EmptyString \/ exists r, rest = String "@"%char r))
  /\ (mine config mr = true <-> is_mine)
  /\ (forall total, collected config env = Ok total ->
        acc_rework_mrs total = alert_items_of config (work_items config env))
  /\ forall timing,
       reduce_item config env project_id mr = Ok timing ->
       exists acc' st',
         process_mr config env project_name project_id acc mr st = (Ok acc', st')
         /\ (is_mine ->
             assigned_count project_name acc' = S (assigned_count project_name acc)
             /\ acc_rework_mrs acc' = acc_rework_mrs acc ++ [alert_item project_name mr])
         /\ (~ is_mine ->
             assigned_count project_name acc' = assigned_count project_name acc
             /\ acc_rework_mrs acc' = acc_rework_mrs acc).
Proof.
  cbv zeta. split; [apply before_at_spec|].
  split.
  { unfold mine. rewrite andb_true_iff, mem_string_In, assigned_to_me_iff. reflexivity. }
  split; [apply collected_alert_list|].
  intros timing Ht.
  destruct (runs_as_process_mr config env project_name project_id acc mr st)
    as (st' & Hrun & _).
  unfold item_step in Hrun. rewrite Ht in Hrun. cbn [rbind] in Hrun.
  exists (record_mr config project_name acc mr timing), st'.
  split; [exact Hrun|].
  pose proof (record_mr_assigned config project_name acc mr timing) as H.
  cbv zeta in H.
  destruct (mem_string (LABEL_REWORK config) (mr_labels mr)) eqn:El;
    destruct (assigned_to_me config mr) eqn:Ea; cbn [andb] in H.
  - split; [intros _; exact H|].
    intros Hn. exfalso. apply Hn. split.
    + now apply mem_string_In.
    + now apply assigned_to_me_iff.
  - split; [|intros _; exact H].
    intros [_ Hm]. apply assigned_to_me_iff in Hm. congruence.
  - split; [|intros _; exact H].
    intros [Hl _]. apply mem_string_In in Hl. congruence.
  - split; [|intros _; exact H].
    intros [Hl _]. apply mem_string_In in Hl. congruence.
Qed.

Lemma rework_assigned_to_me_rule_witness :
  (exists acc' st',
     process_mr sample_config (cycle_env 1) "ops/exporter" 7 (mkAcc [] [] [])
       (rework_mr 1) initial_state = (Ok acc', st')
     /\ assigned_count "ops/exporter" acc' = 1%nat
     /\ acc_rework_mrs acc' = [alert_item "ops/exporter" (rework_mr 1)])
  /\ (exists acc' st',
     process_mr sample_config (cycle_env 1) "ops/exporter" 7 (mkAcc [] [] [])
       misassigned_mr initial_state = (Ok acc', st')
     /\ assigned_count "ops/exporter" acc' = 0%nat
     /\ acc_rework_mrs acc' = []).
Proof.
  split.
  - destruct (proj2 (proj2 (proj2
                (rework_assigned_to_me_rule sample_config (cycle_env 1) "ops/exporter" 7
                   (mkAcc [] [] []) (rework_mr 1) initial_state)))
                    (None, None, None) eq_refl)
      as (acc' & st' & Hrun & Hyes & _).
    exists acc', st'. split; [exact Hrun|]. apply Hyes. split.
    + left. reflexivity.
    + exists bob. split; [left; reflexivity | reflexivity].
  - destruct (proj2 (proj2 (proj2
                (rework_assigned_to_me_rule sample_config (cycle_env 1) "ops/exporter" 7
                   (mkAcc [] [] []) misassigned_mr initial_state)))
                    (None, None, None) eq_refl)
      as (acc' & st' & Hrun & _ & Hno).
    exists acc', st'. split; [exact Hrun|]. apply Hno.
    intros [_ (a & [<-|[]] & Hu)]. discriminate.
Defined.

(** ** Isolation: what a part of the snapshot depends on *)

Section FoldView.

Variables A S V : Type.
Variables f g : S -> A -> Result S.
Variable proj : S -> V.
Variable rel : A -> bool.

Hypothesis f_skip : forall s x s', rel x = false -> f s x = Ok s' -> proj s' = proj s.
Hypothesis g_skip : forall s x s', rel x = false -> g s x = Ok s' -> proj s' = proj s.

Lemma rfold_skip ys : forall s s',
  filter rel ys = [] -> rfold g s ys = Ok s' -> proj s' = proj s.
Proof.
  induction ys as [|y ys IH]; intros s s' Hf H; cbn [rfold] in H.
  - inversion H. reflexivity.
  - cbn [filter] in Hf. destruct (rel y) eqn:Ey; [discriminate|].
    destruct (g s y) as [s1|e] eqn:E1; cbn [rbind] in H; [|discriminate].
    rewrite (IH _ _ Hf H). eapply g_skip; eassumption.
Qed.

(** Two folds over lists with the same relevant elements, whose steps agree
    on those, end with the same projection. *)
Lemma rfold_view xs :
  (forall s1 s2 x s1' s2', In x xs -> rel x = true -> proj s1 = proj s2 ->
     f s1 x = Ok s1' -> g s2 x = Ok s2' -> proj s1' = proj s2') ->
  forall ys s1 s2 s1' s2',
    filter rel xs = filter rel ys -> proj s1 = proj s2 ->
    rfold f s1 xs = Ok s1' -> rfold g s2 ys = Ok s2' -> proj s1' = proj s2'.
Proof.
  induction xs as [|x xs IHx]; intros Hcong ys s1 s2 s1' s2' Hf Hp H1 H2.
  - cbn in H1, Hf. inversion H1; subst s1'.
    rewrite (rfold_skip ys s2 s2' (eq_sym Hf) H2). exact Hp.
  - cbn [rfold] in H1.
    destruct (f s1 x) as [s1x|e] eqn:E1; cbn [rbind] in H1; [|discriminate].
    assert (Hcong' : forall s1 s2 x0 s1' s2', In x0 xs -> rel x0 = true ->
              proj s1 = proj s2 -> f s1 x0 = Ok s1' -> g s2 x0 = Ok s2' ->
              proj s1' = proj s2').
    { intros ? ? ? ? ? Hin. apply Hcong. now right. }
    cbn [filter] in Hf. destruct (rel x) eqn:Ex.
    + revert s2 Hp H2. induction ys as [|y ys IHy]; intros s2 Hp H2.
      * discriminate.
      * cbn [rfold] in H2.
        destruct (g s2 y) as [s2y|e] eqn:E2; cbn [rbind] in H2; [|discriminate].
        cbn [filter] in Hf. destruct (rel y) eqn:Ey.
        -- inversion Hf; subst y.
           eapply (IHx Hcong' ys s1x s2y); try eassumption.
           eapply Hcong; try eassumption. now left.
        -- apply (IHy Hf s2y); [|exact H2].
           rewrite Hp. symmetry. eapply g_skip; eassumption.
    + eapply (IHx Hcong' ys s1x s2); try eassumption.
      rewrite <- Hp. eapply f_skip; eassumption.
Qed.

End FoldView.

(** Two folds over the same list, step by step in a relation. *)
Lemma rfold_lockstep {A S} (f g : S -> A -> Result S) (R : S -> S -> Prop) xs :
  (forall s1 s2 x s1' s2', In x xs -> R s1 s2 ->
     f s1 x = Ok s1' -> g s2 x = Ok s2' -> R s1' s2') ->
  forall s1 s2 s1' s2',
    R s1 s2 -> rfold f s1 xs = Ok s1' -> rfold g s2 xs = Ok s2' -> R s1' s2'.
Proof.
  induction xs as [|x xs IH]; intros Hstep s1 s2 s1' s2' HR H1 H2; cbn [rfold] in H1, H2.
  - inversion H1; inversion H2; subst. exact HR.
  - destruct (f s1 x) as [a|e] eqn:E1; cbn [rbind] in H1; [|discriminate].
    destruct (g s2 x) as [b|e] eqn:E2; cbn [rbind] in H2; [|discriminate].
    apply (IH (fun s1 s2 x0 s1' s2' Hin => Hstep s1 s2 x0 s1' s2' (or_intror Hin)) a b);
      try assumption.
    eapply Hstep; try eassumption. now left.
Qed.

(** A fold keeps what each of its steps keeps. *)
Lemma rfold_keeps {A S V} (f : S -> A -> Result S) (proj : S -> V) xs :
  (forall s x s', f s x = Ok s' -> proj s' = proj s) ->
  forall s s', rfold f s xs = Ok s' -> proj s' = proj s.
Proof.
  intros Hstep. induction xs as [|x xs IH]; intros s s' H; cbn [rfold] in H.
  - inversion H. reflexivity.
  - destruct (f s x) as [a|e] eqn:E; cbn [rbind] in H; [|discriminate].
    rewrite (IH _ _ H). eapply Hstep. exact E.
Qed.

Lemma dict_get_update_same {V} (dflt : V) d k f :
  dict_get (dict_update dflt d k f) k = Some (f (get_default (dict_get d k) dflt)).
Proof.
  unfold dict_update. destruct (dict_get d k); apply dict_get_set_same.
Qed.

Section Views.

Variable config : Config.
Variable n : string.

(** An item of another project leaves the view of [n] as it is. *)
Lemma view_record_other project_name acc mr timing :
  project_name <> n ->
  view n (record_mr config project_name acc mr timing) = view n acc.
Proof.
  intros Hne. pose proof Hne as Hb. apply String.eqb_neq in Hb.
  unfold view, record_mr, count_rework, count_states, branch_record, alert_item.
  destruct timing as [[r v] c].
  destruct (mem_string (LABEL_REWORK config) (mr_labels mr));
    destruct (assigned_to_me config mr);
    destruct (mem_string (LABEL_IN_REVIEW config) (mr_labels mr));
    destruct (mem_string (LABEL_REWORK_DONE config) (mr_labels mr));
    cbn [acc_metrics acc_branch_metrics acc_rework_mrs];
    repeat rewrite (dict_get_update_other zero_stats _ _ _ _ Hne);
    repeat rewrite filter_app; cbn [filter bd_project ai_project];
    rewrite ?Hb, ?app_nil_r; reflexivity.
Qed.

(** An item of the project named [n] acts on the view of [n] only. *)
Lemma view_record_same acc1 acc2 mr timing :
  view n acc1 = view n acc2 ->
  view n (record_mr config n acc1 mr timing) = view n (record_mr config n acc2 mr timing).
Proof.
  unfold view. intros H. inversion H as [[Hm Hr Ha]].
  unfold record_mr, count_rework, count_states.
  destruct (mem_string (LABEL_REWORK config) (mr_labels mr));
    destruct (assigned_to_me config mr);
    destruct (mem_string (LABEL_IN_REVIEW config) (mr_labels mr));
    destruct (mem_string (LABEL_REWORK_DONE config) (mr_labels mr));
    cbn [acc_metrics acc_branch_metrics acc_rework_mrs];
    repeat rewrite dict_get_update_same; rewrite ?Hm;
    repeat rewrite filter_app; rewrite ?Hr, ?Ha; reflexivity.
Qed.

Lemma project_step_view_other env acc project acc' :
  project_name_of project <> n ->
  project_step config env acc project = Ok acc' -> view n acc' = view n acc.
Proof.
  intros Hne H. unfold project_step in H.
  apply (rfold_keeps _ (view n)) in H.
  - rewrite H. unfold view. cbn [acc_metrics acc_branch_metrics acc_rework_mrs].
    now rewrite (dict_get_set_other _ _ _ _ Hne).
  - intros s mr s'. unfold item_step.
    destruct (reduce_item config env (proj_id project) mr) as [t|e];
      cbn [rbind]; intros E; inversion E.
    now apply view_record_other.
Qed.

Lemma project_step_view_same env env' acc1 acc2 project acc1' acc2' :
  project_name_of project = n ->
  fetched_mrs env' (proj_id project) = fetched_mrs env (proj_id project) ->
  (forall mr, reduce_item config env' (proj_id project) mr
              = reduce_item config env (proj_id project) mr) ->
  view n acc1 = view n acc2 ->
  project_step config env acc1 project = Ok acc1' ->
  project_step config env' acc2 project = Ok acc2' ->
  view n acc1' = view n acc2'.
Proof.
  intros Hn Hmrs Hred Hv H1 H2. unfold project_step in H1, H2.
  rewrite Hmrs, Hn in H2. rewrite Hn in H1.
  eapply (rfold_lockstep _ _ (fun s1 s2 => view n s1 = view n s2)); [| |exact H1|exact H2].
  - intros s1 s2 mr s1' s2' _ HR E1 E2. unfold item_step in E1, E2.
    rewrite Hred in E2.
    destruct (reduce_item config env (proj_id project) mr) as [t|e];
      cbn [rbind] in E1, E2; [|discriminate].
    injection E1 as <-. injection E2 as <-. now apply view_record_same.
  - unfold view in *. cbn [acc_metrics acc_branch_metrics acc_rework_mrs].
    inversion Hv as [[Hm Hr Ha]].
    now rewrite !dict_get_set_same.
Qed.

End Views.

(** ** One failing call *)

Lemma fail_call_dated endpoint env : env_dated env -> env_dated (fail_call endpoint env).
Proof.
  intros Hd project_id mrs mr Hm Hin. destruct endpoint as [r|p|p i]; cbn in Hm |- *.
  - exact (Hd _ _ _ Hm Hin).
  - destruct (project_id =? p); [discriminate|]. exact (Hd _ _ _ Hm Hin).
  - destruct (Hd _ _ _ Hm Hin) as [Hc He]. split; [exact Hc|].
    intros events E.
    destruct ((project_id =? p) && (mr_iid mr =? i))%bool; [discriminate|].
    exact (He events E).
Qed.

Section OneFailure.

Variable config : Config.
Variable env : Env.
Variable endpoint : Endpoint.
Variable n : string.

Hypothesis untouched : ~ touches config env endpoint n.

(** The projects named [n] are resolved as without the failure. *)
Lemma resolved_named_same :
  filter (named n) (resolved_projects config env)
  = filter (named n) (resolved_projects config (fail_call endpoint env)).
Proof.
  destruct endpoint as [r|p|p i]; [|reflexivity|reflexivity].
  unfold resolved_projects. induction (REPOSITORIES config) as [|r' names IH];
    [reflexivity|].
  cbn [flat_map]. rewrite !filter_app, IH. f_equal.
  unfold resolved_project at 2. cbn [fail_call search_projects].
  destruct (r' =? r)%string eqn:E.
  - apply String.eqb_eq in E. subst r'. cbn.
    destruct (filter (named n) (resolved_project env r)) as [|proj rest] eqn:F;
      [reflexivity|].
    exfalso. apply untouched. cbn.
    assert (Hin : In proj (filter (named n) (resolved_project env r)))
      by (rewrite F; now left).
    apply filter_In in Hin. destruct Hin as [Hin Hname].
    exists proj. split; [exact Hin|]. now apply String.eqb_eq.
  - reflexivity.
Qed.

(** A resolved project named [n] is fetched and reduced as without the
    failure. *)
Lemma untouched_project_same project :
  In project (resolved_projects config env) -> named n project = true ->
  fetched_mrs (fail_call endpoint env) (proj_id project) = fetched_mrs env (proj_id project)
  /\ forall mr, reduce_item config (fail_call endpoint env) (proj_id project) mr
                = reduce_item config env (proj_id project) mr.
Proof.
  intros Hin Hname. apply String.eqb_eq in Hname.
  destruct endpoint as [r|p|p i]; [split; reflexivity| |].
  - assert (Hne : (proj_id project =? p) = false).
    { apply Z.eqb_neq. intros E. apply untouched. exists project. auto. }
    split; [|reflexivity].
    unfold fetched_mrs. cbn. now rewrite Hne.
  - assert (Hne : (proj_id project =? p) = false).
    { apply Z.eqb_neq. intros E. apply untouched. exists project. auto. }
    split; [reflexivity|].
    intros mr. unfold reduce_item. cbn. now rewrite Hne.
Qed.

(** The view of [n] is the same with and without the failure. *)
Lemma untouched_view_same acc acc' :
  collected config env = Ok acc ->
  collected config (fail_call endpoint env) = Ok acc' ->
  view n acc' = view n acc.
Proof.
  intros H1 H2. symmetry. unfold collected in H1, H2.
  eapply (rfold_view _ _ _ (project_step config env)
            (project_step config (fail_call endpoint env)) (view n) (named n));
    [ | | | exact resolved_named_same | reflexivity | exact H1 | exact H2 ].
  - intros s x s' Hrel. apply project_step_view_other.
    now apply String.eqb_neq.
  - intros s x s' Hrel. apply project_step_view_other.
    now apply String.eqb_neq.
  - intros s1 s2 x s1' s2' Hin Hrel Hv E1 E2.
    destruct (untouched_project_same x Hin Hrel) as [Hm Hr].
    eapply project_step_view_same; try eassumption.
    now apply String.eqb_eq.
Qed.

End OneFailure.

(** ** A failing label-event call, item by item *)

Lemma Forall2_nth_error {A B} (P : A -> B -> Prop) xs ys k x :
  Forall2 P xs ys -> nth_error xs k = Some x ->
  exists y, nth_error ys k = Some y /\ P x y.
Proof.
  intros H. revert k. induction H as [|x0 y0 xs ys Hxy _ IH]; intros k Hk.
  - destruct k; discriminate.
  - destruct k as [|k]; cbn in Hk |- *.
    + inversion Hk; subst. eauto.
    + apply IH. exact Hk.
Qed.

Section Records.

Variable config : Config.
Variable env : Env.

Lemma item_fold_records project mrs : forall acc acc',
  rfold (item_step config env (project_name_of project) (proj_id project)) acc mrs = Ok acc' ->
  exists recs,
    acc_branch_metrics acc' = acc_branch_metrics acc ++ recs
    /\ Forall2 (record_of config env) (map (pair project) mrs) recs.
Proof.
  induction mrs as [|mr mrs IH]; intros acc acc' H; cbn [rfold] in H.
  - inversion H. exists []. split; [now rewrite app_nil_r | constructor].
  - unfold item_step at 1 in H.
    destruct (reduce_item config env (proj_id project) mr) as [t|e] eqn:Et;
      cbn [rbind] in H; [|discriminate].
    destruct (IH _ _ H) as (recs & Hrecs & Hall).
    exists (branch_record config (project_name_of project) mr t :: recs). split.
    + rewrite Hrecs. unfold record_mr.
      destruct (count_rework config (project_name_of project) mr _ _).
      cbn [acc_branch_metrics]. now rewrite <- app_assoc.
    + cbn [map]. constructor; [|exact Hall]. exists t. split; [exact Et | reflexivity].
Qed.

Lemma project_fold_records projects : forall acc acc',
  rfold (project_step config env) acc projects = Ok acc' ->
  exists recs,
    acc_branch_metrics acc' = acc_branch_metrics acc ++ recs
    /\ Forall2 (record_of config env)
         (flat_map (fun project => map (pair project) (fetched_mrs env (proj_id project)))
                   projects)
         recs.
Proof.
  induction projects as [|project projects IH]; intros acc acc' H; cbn [rfold] in H.
  - inversion H. exists []. split; [now rewrite app_nil_r | constructor].
  - destruct (project_step config env acc project) as [acc1|e] eqn:E1;
      cbn [rbind] in H; [|discriminate].
    unfold project_step in E1.
    destruct (item_fold_records _ _ _ _ E1) as (recs1 & Hr1 & Hall1).
    destruct (IH _ _ H) as (recs2 & Hr2 & Hall2).
    exists (recs1 ++ recs2). split.
    + rewrite Hr2, Hr1. cbn [acc_branch_metrics]. now rewrite app_assoc.
    + cbn [flat_map]. apply Forall2_app; assumption.
Qed.

(** The records of the snapshot are those of the work items, in order. *)
Lemma collected_records acc :
  collected config env = Ok acc ->
  Forall2 (record_of config env) (work_items config env) (acc_branch_metrics acc).
Proof.
  intros H. destruct (project_fold_records _ _ _ H) as (recs & Hrecs & Hall).
  cbn in Hrecs. rewrite Hrecs. exact Hall.
Qed.

End Records.

(** The counters and the alert list of an item do not depend on its
    durations. *)
Lemma record_mr_counts config project_name acc1 acc2 mr timing1 timing2 :
  acc_metrics acc1 = acc_metrics acc2 /\ acc_rework_mrs acc1 = acc_rework_mrs acc2 ->
  acc_metrics (record_mr config project_name acc1 mr timing1)
  = acc_metrics (record_mr config project_name acc2 mr timing2)
  /\ acc_rework_mrs (record_mr config project_name acc1 mr timing1)
     = acc_rework_mrs (record_mr config project_name acc2 mr timing2).
Proof.
  intros [Hm Ha]. unfold record_mr. rewrite Hm, Ha.
  destruct (count_rework config project_name mr _ _). split; reflexivity.
Qed.

Lemma label_failure_counts config env p i acc acc' :
  collected config env = Ok acc ->
  collected config (fail_call (EpLabelEvents p i) env) = Ok acc' ->
  acc_metrics acc' = acc_metrics acc /\ acc_rework_mrs acc' = acc_rework_mrs acc.
Proof.
  intros H1 H2. unfold collected in H1, H2.
  change (resolved_projects config (fail_call (EpLabelEvents p i) env))
    with (resolved_projects config env) in H2.
  eapply (rfold_lockstep _ _
            (fun s2 s1 => acc_metrics s2 = acc_metrics s1
                          /\ acc_rework_mrs s2 = acc_rework_mrs s1));
    [| |exact H2|exact H1]; [|split; reflexivity].
  intros s2 s1 project s2' s1' _ [Hm Ha] E2 E1. unfold project_step in E1, E2.
  change (fetched_mrs (fail_call (EpLabelEvents p i) env) (proj_id project))
    with (fetched_mrs env (proj_id project)) in E2.
  eapply (rfold_lockstep _ _
            (fun s2 s1 => acc_metrics s2 = acc_metrics s1
                          /\ acc_rework_mrs s2 = acc_rework_mrs s1));
    [| |exact E2|exact E1].
  - intros t2 t1 mr t2' t1' _ HR F2 F1. unfold item_step in F1, F2.
    destruct (reduce_item config env (proj_id project) mr); cbn [rbind] in F1; [|discriminate].
    destruct (reduce_item config (fail_call (EpLabelEvents p i) env) (proj_id project) mr);
      cbn [rbind] in F2; [|discriminate].
    injection F1 as <-. injection F2 as <-. now apply record_mr_counts.
  - cbn [acc_metrics acc_rework_mrs]. now rewrite Hm, Ha.
Qed.

Lemma label_failure_records config env p i acc acc' k project mr :
  collected config env = Ok acc ->
  collected config (fail_call (EpLabelEvents p i) env) = Ok acc' ->
  nth_error (work_items config env) k = Some (project, mr) ->
  ~ (proj_id project = p /\ mr_iid mr = i) ->
  nth_error (acc_branch_metrics acc') k = nth_error (acc_branch_metrics acc) k.
Proof.
  intros H1 H2 Hk Hother.
  pose proof (collected_records _ _ _ H1) as R1.
  pose proof (collected_records _ _ _ H2) as R2.
  change (work_items config (fail_call (EpLabelEvents p i) env))
    with (work_items config env) in R2.
  destruct (Forall2_nth_error _ _ _ _ _ R1 Hk) as (r1 & N1 & t1 & T1 & ->).
  destruct (Forall2_nth_error _ _ _ _ _ R2 Hk) as (r2 & N2 & t2 & T2 & ->).
  rewrite N1, N2. cbn [fst snd] in *.
  assert (E : reduce_item config (fail_call (EpLabelEvents p i) env) (proj_id project) mr
              = reduce_item config env (proj_id project) mr).
  { unfold reduce_item. cbn.
    destruct (proj_id project =? p) eqn:Ep; [|reflexivity].
    destruct (mr_iid mr =? i) eqn:Ei; [|reflexivity].
    exfalso. apply Hother. split; [now apply Z.eqb_eq | now apply Z.eqb_eq]. }
  rewrite E in T2. congruence.
Qed.

(** ** Soft failure of the collector *)



Lemma two_project_env_dated : env_dated two_project_env.
Proof.
  intros project_id mrs mr Hm Hin. cbn in Hm.
  assert (Hc : exists c, mr_created_at mr = Iso c).
  { destruct (project_id =? 7); inversion Hm; subst mrs;
      destruct Hin as [<-|[]]; eexists; reflexivity. }
  split; [exact Hc|].
  intros events E. cbn in E. inversion E.
  repeat constructor; eexists; reflexivity.
Qed.


(** ** The alert gate *)

(** C3.  In a collection cycle (a scrape outside the window, on dated
    upstream data) a mail is handed to [send_email_alert] when the number of
    rework items assigned to me (the items of the cycle that are [mine])
    exceeds the stored count, and only then; the
    stored count becomes the current number whether or not a mail was handed
    over and whatever the transport does with it.  With 2, 2, 1 and 3 such
    items in four successive cycles from the initial state, mails go out in
    the first and the fourth cycle only. *)
Theorem alert_on_increase_only :
  (forall (config : Config) (env : Env) (now : Q) (st : State),
     ~ (fl (now - last_update (metrics_cache st)) < 10)%Q -> env_dated env ->
     exists acc st_c,
       collect config env st = (Ok acc, st_c)
       /\ acc_rework_mrs acc = alert_items_of config (work_items config env)
       /\ let count := List.length (acc_rework_mrs acc) in
          let last := get_default (last_rework_count (metrics_cache st)) 0%nat in
          let st' := snd (collect_metrics config env now st) in
          last_rework_count (metrics_cache st') = Some count
          /\ ((last < count)%nat ->
              alert_calls st'
              = mkEmail alert_subject (alert_body (acc_rework_mrs acc)) :: alert_calls st)
          /\ (~ (last < count)%nat -> alert_calls st' = alert_calls st))
  /\ map (fun k => option_map (fun acc => List.length (acc_rework_mrs acc))
                     (match collected sample_config (cycle_env k) with
                      | Ok acc => Some acc
                      | Raise _ => None
                      end))
         [2; 2; 1; 3]%nat
     = [Some 2; Some 2; Some 1; Some 3]%nat
  /\ alerts_fired sample_config
       [(cycle_env 2, 100%Q); (cycle_env 2, 200%Q); (cycle_env 1, 300%Q); (cycle_env 3, 400%Q)]
       initial_state
     = [true; false; false; true].
Proof.
  split; [|split; vm_compute; reflexivity].
  intros config env now st Hstale Hd.
  destruct (collected_total config env Hd) as [acc Hacc].
  destruct (runs_as_collect config env st) as (st_c & Hc & (Hcache0 & Halerts0 & _)).
  rewrite Hacc in Hc.
  destruct (alert_and_store_run config env now acc st_c)
    as (st' & Hrun & Hcache & _ & Halerts).
  exists acc, st_c. split; [exact Hc|].
  split; [now apply collected_alert_list|].
  cbv zeta. rewrite (collect_metrics_stale _ _ _ _ _ _ Hstale Hc), Hrun. cbn [snd].
  rewrite Hcache. cbn [last_rework_count]. split; [reflexivity|].
  rewrite Halerts, Hcache0, Halerts0.
  split; intros H.
  - apply should_alert_iff in H. rewrite H. reflexivity.
  - destruct (should_alert (metrics_cache st) (acc_rework_mrs acc)) eqn:E; [|reflexivity].
    apply should_alert_iff in E. contradiction.
Qed.

Lemma alert_on_increase_only_witness :
  exists acc st_c,
    collect sample_config (cycle_env 2) initial_state = (Ok acc, st_c)
    /\ last_rework_count
         (metrics_cache (snd (collect_metrics sample_config (cycle_env 2) 100 initial_state)))
       = Some (List.length (acc_rework_mrs acc)).
Proof.
  destruct (proj1 alert_on_increase_only sample_config (cycle_env 2) 100%Q initial_state)
    as (acc & st_c & Hc & _ & Hcount & _).
  - intros H. vm_compute in H. discriminate.
  - apply cycle_env_dated.
  - exists acc, st_c. split; [exact Hc | exact Hcount].
Defined.

(** ** More on the reducer *)

Section ReducerMore.

Variable config : Config.

Ltac scan_step a ev :=
  unfold scan_event;
  destruct (ev_created_at ev) eqn:?; cbn [fromisoformat rbind];
  destruct (ev_label ev) as [label_name|] eqn:?;
  destruct (ev_action ev =? "add")%string eqn:?;
  try destruct (label_name =? LABEL_REWORK config)%string eqn:?;
  try destruct (label_name =? LABEL_IN_REVIEW config)%string eqn:?;
  try destruct (label_name =? LABEL_REWORK_DONE config)%string eqn:?;
  destruct (rework_added a) eqn:?;
  destruct (in_review_added a) eqn:?;
  destruct (rework_done_added a) eqn:?;
  cbn [andb is_unset].

(** The scan of a log in two parts is the scan of the whole. *)
Lemma scan_events_app xs ys : forall a,
  scan_events config a (xs ++ ys)
  = rbind (scan_events config a xs) (fun a' => scan_events config a' ys).
Proof.
  induction xs as [|x xs IH]; intros a; cbn [app scan_events rbind]; [reflexivity|].
  destruct (scan_event config a x) as [a1|e]; cbn [rbind]; [apply IH | reflexivity].
Qed.

Lemma scan_event_keeps a ev a' :
  scan_event config a ev = Ok a' ->
  (forall t, rework_added a = Some t -> rework_added a' = Some t)
  /\ (forall t, in_review_added a = Some t -> in_review_added a' = Some t)
  /\ (forall t, rework_done_added a = Some t -> rework_done_added a' = Some t).
Proof.
  scan_step a ev; intros H; inversion H; subst; cbn;
    repeat split; intros t Ht; congruence.
Qed.

Lemma scan_events_keep events : forall a a',
  scan_events config a events = Ok a' ->
  (forall t, rework_added a = Some t -> rework_added a' = Some t)
  /\ (forall t, in_review_added a = Some t -> in_review_added a' = Some t)
  /\ (forall t, rework_done_added a = Some t -> rework_done_added a' = Some t).
Proof.
  induction events as [|ev rest IH]; intros a a' H; cbn [scan_events] in H.
  - inversion H; subst. auto.
  - destruct (scan_event config a ev) as [a1|e] eqn:E; cbn [rbind] in H; [|discriminate].
    destruct (scan_event_keeps _ _ _ E) as (K1 & K2 & K3).
    destruct (IH _ _ H) as (I1 & I2 & I3).
    repeat split; intros t Ht; auto.
Qed.

(** With an in_review label that is not the rework label, the in_review
    date is the first add of that label. *)
Lemma scan_event_in_review a ev a' :
  LABEL_REWORK config <> LABEL_IN_REVIEW config ->
  scan_event config a ev = Ok a' ->
  in_review_added a' =
    or_first (in_review_added a)
      (if is_add (LABEL_IN_REVIEW config) ev
       then match ev_created_at ev with Iso t => Some t | _ => None end
       else None).
Proof.
  intros Hri. unfold is_add.
  scan_step a ev; intros H; inversion H; subst; cbn;
    try congruence; try reflexivity;
    repeat match goal with
           | E : (_ =? _)%string = true |- _ => apply String.eqb_eq in E
           end; congruence.
Qed.

Lemma scan_events_in_review events : forall a a',
  LABEL_REWORK config <> LABEL_IN_REVIEW config ->
  scan_events config a events = Ok a' ->
  in_review_added a'
  = or_first (in_review_added a) (first_add (LABEL_IN_REVIEW config) events).
Proof.
  induction events as [|ev rest IH]; intros a a' Hri H; cbn [scan_events] in H.
  - inversion H; subst. destruct (in_review_added a'); reflexivity.
  - destruct (scan_event config a ev) as [a1|e] eqn:H1; cbn [rbind] in H; [|discriminate].
    rewrite (IH _ _ Hri H), (scan_event_in_review _ _ _ Hri H1). cbn [first_add].
    destruct (in_review_added a); cbn [or_first]; [reflexivity|].
    destruct (is_add (LABEL_IN_REVIEW config) ev) eqn:Hadd; [|reflexivity].
    destruct (ev_created_at ev) eqn:Ht; try reflexivity;
      unfold scan_event in H1; rewrite Ht in H1; discriminate.
Qed.

End ReducerMore.

(** X1.  The scan of a log followed by further events continues from what
    the scan of the log recorded, and none of the three recorded dates is
    ever replaced: the first add of a label wins, whatever the labels of the
    configuration are. *)
Theorem recorded_dates_persist
    (config : Config) (a a1 : Added) (events later : list LabelEvent) :
  scan_events config a events = Ok a1 ->
  scan_events config a (events ++ later) = scan_events config a1 later
  /\ forall a2, scan_events config a1 later = Ok a2 ->
       (forall t, rework_added a1 = Some t -> rework_added a2 = Some t)
       /\ (forall t, in_review_added a1 = Some t -> in_review_added a2 = Some t)
       /\ (forall t, rework_done_added a1 = Some t -> rework_done_added a2 = Some t).
Proof.
  intros H. split.
  - rewrite scan_events_app, H. reflexivity.
  - intros a2. apply scan_events_keep.
Qed.

Lemma recorded_dates_persist_witness :
  scan_events sample_config no_added (ordered_log ++ busy_log)
  = scan_events sample_config
      (mkAdded (Some (1 * hour)) (Some (2 * hour)) (Some (3 * hour))) busy_log.
Proof.
  apply (recorded_dates_persist sample_config no_added
           (mkAdded (Some (1 * hour)) (Some (2 * hour)) (Some (3 * hour)))
           ordered_log busy_log).
  reflexivity.
Defined.

(** An event whose date is no date stops the scan, whatever its label. *)
Lemma scan_event_undated (config : Config) (a : Added) (ev : LabelEvent) (e : PyError) :
  fromisoformat (ev_created_at ev) = Raise e -> scan_event config a ev = Raise e.
Proof. intros H. unfold scan_event. rewrite H. reflexivity. Qed.

Lemma scan_events_raise_at
    (config : Config) (good : list LabelEvent) (bad : LabelEvent)
    (rest : list LabelEvent) (e : PyError) (a : Added) :
  Forall timestamped good ->
  fromisoformat (ev_created_at bad) = Raise e ->
  scan_events config a (good ++ bad :: rest) = Raise e.
Proof.
  intros Hgood Hbad. rewrite scan_events_app.
  destruct (scan_events_total config good a Hgood) as [a1 H1]. rewrite H1.
  cbn [rbind scan_events]. rewrite (scan_event_undated config a1 bad e Hbad). reflexivity.
Qed.

(** X2.  Where the reducer raises.  On an empty log it returns three absent
    durations and does not read the creation date.  On a log that is not
    empty an absent creation date raises [AttributeError] and one that is no
    date [ValueError], before any event is read.  With a creation date, the
    first event whose date is absent raises [AttributeError], and the first
    whose date is no date [ValueError], whatever the label and the action of
    that event and whatever follows it in the log. *)
Theorem reducer_raises_at_first_bad_date (config : Config) (now : Z) :
  (forall created, time_in_state config created [] now = Ok (None, None, None))
  /\ (forall events, events <> [] ->
        time_in_state config Missing events now = Raise AttributeError)
  /\ (forall events, events <> [] ->
        time_in_state config Malformed events now = Raise ValueError)
  /\ (forall c good bad rest,
        Forall timestamped good -> ev_created_at bad = Missing ->
        time_in_state config (Iso c) (good ++ bad :: rest) now = Raise AttributeError)
  /\ (forall c good bad rest,
        Forall timestamped good -> ev_created_at bad = Malformed ->
        time_in_state config (Iso c) (good ++ bad :: rest) now = Raise ValueError).
Proof.
  assert (Hscan : forall c good bad rest e,
            Forall timestamped good ->
            fromisoformat (ev_created_at bad) = Raise e ->
            time_in_state config (Iso c) (good ++ bad :: rest) now = Raise e).
  { intros c good bad rest e Hgood Hbad. unfold time_in_state.
    destruct (good ++ bad :: rest) as [|ev evs] eqn:E.
    - destruct good; discriminate.
    - rewrite <- E. cbn [fromisoformat rbind].
      rewrite (scan_events_raise_at config good bad rest e no_added Hgood Hbad).
      reflexivity. }
  split; [reflexivity|]. split; [|split; [|split]].
  - intros events Hne. destruct events; [contradiction | reflexivity].
  - intros events Hne. destruct events; [contradiction | reflexivity].
  - intros c good bad rest Hgood Hbad. apply Hscan; [exact Hgood|]. now rewrite Hbad.
  - intros c good bad rest Hgood Hbad. apply Hscan; [exact Hgood|]. now rewrite Hbad.
Qed.

Lemma time_in_state_first_adds
    (config : Config) (c now : Z) (events : list LabelEvent) :
  LABEL_REWORK config <> LABEL_IN_REVIEW config ->
  LABEL_REWORK config <> LABEL_REWORK_DONE config ->
  LABEL_IN_REVIEW config <> LABEL_REWORK_DONE config ->
  Forall timestamped events ->
  time_in_state config (Iso c) events now
  = Ok (durations c
          (mkAdded (first_add (LABEL_REWORK config) events)
                   (first_add (LABEL_IN_REVIEW config) events)
                   (first_add (LABEL_REWORK_DONE config) events))
          now).
Proof.
  intros Hri Hrd Hid Hwf. unfold time_in_state.
  destruct events as [|ev rest]; [reflexivity|].
  cbn [fromisoformat rbind].
  destruct (scan_events_total config (ev :: rest) no_added Hwf) as [a Ha].
  rewrite Ha. cbn [rbind].
  pose proof (scan_events_rework config _ _ _ Ha) as Er.
  pose proof (scan_events_in_review config _ _ _ Hri Ha) as Ei.
  pose proof (scan_events_done config _ _ _ Hrd Hid Ha) as Ed.
  cbn [no_added rework_added in_review_added rework_done_added or_first] in Er, Ei, Ed.
  rewrite <- Er, <- Ei, <- Ed. destruct a. reflexivity.
Qed.

(** X3.  With three label names that differ from one another, the reducer
    on a log of dated events is [durations] applied to the first add of each
    label: nothing else of the log counts. *)
Theorem reducer_reads_first_adds
    (config : Config) (c now : Z) (events : list LabelEvent) :
  LABEL_REWORK config <> LABEL_IN_REVIEW config ->
  LABEL_REWORK config <> LABEL_REWORK_DONE config ->
  LABEL_IN_REVIEW config <> LABEL_REWORK_DONE config ->
  Forall timestamped events ->
  time_in_state config (Iso c) events now
  = Ok (durations c
          (mkAdded (first_add (LABEL_REWORK config) events)
                   (first_add (LABEL_IN_REVIEW config) events)
                   (first_add (LABEL_REWORK_DONE config) events))
          now).
Proof. apply time_in_state_first_adds. Qed.

Lemma reducer_reads_first_adds_witness :
  time_in_state sample_config (Iso 0) busy_log (9 * hour)
  = Ok (Some 2%Q, None, Some 3%Q).
Proof.
  rewrite (reducer_reads_first_adds sample_config 0 (9 * hour) busy_log).
  - reflexivity.
  - discriminate.
  - discriminate.
  - discriminate.
  - repeat constructor; eexists; reflexivity.
Defined.

(** ** The sign of a float duration *)

Lemma fl_pos q : (0 < q)%Q -> (0 < fl q)%Q.
Proof.
  intros H. pose proof (fl_error q) as E.
  rewrite (Qabs_pos q) in E by (apply Qlt_le_weak, H).
  apply Qabs_Qle_condition in E. lra.
Qed.

Lemma fl_neg q : (q < 0)%Q -> (fl q < 0)%Q.
Proof.
  intros H. pose proof (fl_error q) as E.
  rewrite (Qabs_neg q) in E by (apply Qlt_le_weak, H).
  apply Qabs_Qle_condition in E. lra.
Qed.

Lemma hours_between_pos a b : a < b -> (0 < hours_between a b)%Q.
Proof.
  intros H. unfold hours_between, total_seconds.
  apply fl_pos. apply Qlt_shift_div_l; [reflexivity|].
  rewrite Qmult_0_l. apply fl_pos. unfold Qlt. cbn. lia.
Qed.

Lemma hours_between_neg a b : b < a -> (hours_between a b < 0)%Q.
Proof.
  intros H. unfold hours_between, total_seconds.
  apply fl_neg. apply Qlt_shift_div_r; [reflexivity|].
  rewrite Qmult_0_l. apply fl_neg. unfold Qlt. cbn. lia.
Qed.

Lemma hours_between_same a : hours_between a a = 0%Q.
Proof. unfold hours_between, total_seconds. rewrite Z.sub_diag. reflexivity. Qed.

Lemma hours_between_pos_iff a b : (0 < hours_between a b)%Q <-> a < b.
Proof.
  split; [|apply hours_between_pos].
  intros G. destruct (Z.lt_total a b) as [H|[H|H]]; [exact H| |].
  - subst b. rewrite hours_between_same in G. discriminate.
  - pose proof (hours_between_neg a b H) as P.
    exfalso. exact (Qlt_irrefl _ (Qlt_trans _ _ _ P G)).
Qed.

(** X4.  The two float divisions of [(b - a).total_seconds() / 3600] never
    lose the sign of the difference of the dates nor turn a difference into
    zero: the duration is positive, zero or negative exactly as [b] is
    after, at or before [a]. *)
Theorem hours_between_sign (a b : Z) :
  ((0 < hours_between a b)%Q <-> a < b)
  /\ (hours_between a b = 0%Q <-> a = b)
  /\ ((hours_between a b < 0)%Q <-> b < a).
Proof.
  destruct (Z.lt_total a b) as [H|[H|H]].
  - pose proof (hours_between_pos a b H) as P.
    repeat split; intros G; try lia; try exact P.
    + rewrite G in P. discriminate.
    + exfalso. exact (Qlt_irrefl _ (Qlt_trans _ _ _ P G)).
  - subst b. pose proof (hours_between_same a) as P.
    repeat split; intros G; try lia; try exact P; rewrite P in G; discriminate.
  - pose proof (hours_between_neg a b H) as P.
    repeat split; intros G; try lia; try exact P.
    + exfalso. exact (Qlt_irrefl _ (Qlt_trans _ _ _ P G)).
    + rewrite G in P. discriminate.
Qed.

(** ** The sign of the durations, from the first adds *)

Lemma hours_between_nonneg_iff a b : (0 <= hours_between a b)%Q <-> a <= b.
Proof.
  split; [|apply hours_between_nonneg].
  intros G. destruct (Z_le_gt_dec a b) as [H|H]; [exact H|].
  pose proof (hours_between_neg a b ltac:(lia)) as P.
  exfalso. exact (Qlt_irrefl _ (Qle_lt_trans _ _ _ G P)).
Qed.

(** C7, amended.  With three label names that differ from one another and a
    log of dated events, the reducer returns three durations, and each is
    absent or not negative exactly when the dates it subtracts are in order:
    the time in rework when the first add of rework_done is not dated before
    the first add of rework; the time in review when the first add of
    in_review is not dated after the first add of rework_done, or after the
    clock if rework_done was never added; the time to complete when the
    first add of rework_done is not dated before the creation of the item.
    For any record, the renderer emits no line of a timing series whose
    stored value is not greater than zero, so a negative duration is never
    rendered. *)
Theorem durations_nonneg_when_ordered :
  (forall (config : Config) (c now : Z) (events : list LabelEvent),
     LABEL_REWORK config <> LABEL_IN_REVIEW config ->
     LABEL_REWORK config <> LABEL_REWORK_DONE config ->
     LABEL_IN_REVIEW config <> LABEL_REWORK_DONE config ->
     Forall timestamped events ->
     exists rework review complete,
       time_in_state config (Iso c) events now = Ok (rework, review, complete)
       /\ (absent_or_nonneg rework
           <-> forall r d, first_add (LABEL_REWORK config) events = Some r ->
                           first_add (LABEL_REWORK_DONE config) events = Some d ->
                           r <= d)
       /\ (absent_or_nonneg review
           <-> forall i, first_add (LABEL_IN_REVIEW config) events = Some i ->
                         i <= get_default (first_add (LABEL_REWORK_DONE config) events) now)
       /\ (absent_or_nonneg complete
           <-> forall d, first_add (LABEL_REWORK_DONE config) events = Some d -> c <= d))
  /\ (forall bd : BranchData,
        ((bd_time_in_rework bd < 0)%Q ->
           samples_of "gitlab_mr_time_in_rework_hours" (branch_lines bd) = [])
        /\ ((bd_time_in_review bd < 0)%Q ->
           samples_of "gitlab_mr_time_in_review_hours" (branch_lines bd) = [])
        /\ ((bd_time_to_complete bd < 0)%Q ->
           samples_of "gitlab_mr_time_to_complete_hours" (branch_lines bd) = [])).
Proof.
  split.
  - intros config c now events Hri Hrd Hid Hwf.
    rewrite (time_in_state_first_adds config c now events Hri Hrd Hid Hwf).
    unfold durations. cbn [rework_added in_review_added rework_done_added].
    destruct (first_add (LABEL_REWORK config) events) as [r|];
      destruct (first_add (LABEL_IN_REVIEW config) events) as [i|];
      destruct (first_add (LABEL_REWORK_DONE config) events) as [d|];
      eexists; eexists; eexists; (split; [reflexivity|]);
      cbn [absent_or_nonneg get_default]; rewrite ?hours_between_nonneg_iff;
      repeat split; intros; try discriminate; try exact I;
      repeat match goal with
             | E : Some _ = Some _ |- _ => injection E as <-
             end;
      auto.
  - intros bd. destruct (timing_samples bd) as (Hr & Hv & Hc).
    rewrite Hr, Hv, Hc.
    repeat split; intros H;
      match goal with
      | |- (if Qlt_bool 0 ?x then _ else _) = _ =>
          assert (E : Qlt_bool 0 x = false)
            by (apply Qlt_bool_false; intros H'; exact (Qlt_irrefl _ (Qlt_trans _ _ _ H' H)));
          rewrite E; reflexivity
      end.
Qed.

Lemma durations_nonneg_when_ordered_witness :
  exists rework review complete,
    time_in_state sample_config (Iso 0) busy_log (9 * hour)
      = Ok (rework, review, complete)
    /\ (absent_or_nonneg rework
        <-> forall r d, first_add "rework" busy_log = Some r ->
                        first_add "rework_done" busy_log = Some d -> r <= d)
    /\ (absent_or_nonneg review
        <-> forall i, first_add "in_review" busy_log = Some i ->
                      i <= get_default (first_add "rework_done" busy_log) (9 * hour))
    /\ (absent_or_nonneg complete
        <-> forall d, first_add "rework_done" busy_log = Some d -> 0 <= d).
Proof.
  apply (proj1 durations_nonneg_when_ordered sample_config 0 (9 * hour) busy_log).
  - discriminate.
  - discriminate.
  - discriminate.
  - repeat constructor; eexists; reflexivity.
Defined.

(** ** From the log to the lines *)

Lemma or_zero_pos x : (0 < or_zero x)%Q <-> exists q, x = Some q /\ (0 < q)%Q.
Proof.
  destruct x as [q|]; cbn.
  - destruct (Qeq_bool q 0) eqn:E.
    + split; [intros H; discriminate|].
      intros (q' & Hq & Hpos). inversion Hq; subst q'.
      apply Qeq_bool_iff in E. rewrite E in Hpos. discriminate.
    + split; [eauto|]. intros (q' & Hq & Hpos). now inversion Hq; subst.
  - split; [intros H; discriminate|]. intros (q' & Hq & _). discriminate.
Qed.

Lemma samples_nonempty_iff (value : Q) (line : string) :
  (if Qlt_bool 0 value then [line] else []) <> [] <-> (0 < value)%Q.
Proof.
  destruct (Qlt_bool 0 value) eqn:E.
  - apply Qlt_bool_iff in E. split; [auto | discriminate].
  - apply Qlt_bool_false in E. split; [congruence | contradiction].
Qed.

(** X5.  With three label names that differ from one another, an item with
    a dated log gets a line of a timing series exactly when the first adds
    say so: time in rework when rework_done was first added after rework
    was; time in review when in_review was first added before rework_done
    was, or before the clock if rework_done never was; time to complete when
    rework_done was first added after the item was created. *)
Theorem timing_lines_follow_first_adds
    (config : Config) (project_name : string) (mr : MergeRequest)
    (c now : Z) (events : list LabelEvent) :
  LABEL_REWORK config <> LABEL_IN_REVIEW config ->
  LABEL_REWORK config <> LABEL_REWORK_DONE config ->
  LABEL_IN_REVIEW config <> LABEL_REWORK_DONE config ->
  Forall timestamped events ->
  exists timing,
    time_in_state config (Iso c) events now = Ok timing
    /\ let lines := branch_lines (branch_record config project_name mr timing) in
       (samples_of "gitlab_mr_time_in_rework_hours" lines <> []
        <-> exists r d, first_add (LABEL_REWORK config) events = Some r
                        /\ first_add (LABEL_REWORK_DONE config) events = Some d
                        /\ r < d)
       /\ (samples_of "gitlab_mr_time_in_review_hours" lines <> []
        <-> exists i, first_add (LABEL_IN_REVIEW config) events = Some i
                      /\ i < get_default (first_add (LABEL_REWORK_DONE config) events) now)
       /\ (samples_of "gitlab_mr_time_to_complete_hours" lines <> []
        <-> exists d, first_add (LABEL_REWORK_DONE config) events = Some d /\ c < d).
Proof.
  intros Hri Hrd Hid Hwf.
  eexists. split; [apply time_in_state_first_adds; assumption|].
  cbv zeta.
  match goal with
  | |- context [branch_lines ?bd] => destruct (timing_samples bd) as (Sr & Sv & Sc)
  end.
  rewrite Sr, Sv, Sc. rewrite !samples_nonempty_iff.
  unfold durations, branch_record.
  cbn [bd_time_in_rework bd_time_in_review bd_time_to_complete
       rework_added in_review_added rework_done_added].
  rewrite !or_zero_pos.
  assert (Hsome : forall a b, (exists q, Some (hours_between a b) = Some q /\ (0 < q)%Q)
                              <-> a < b).
  { intros a b. rewrite <- hours_between_pos_iff. split.
    - intros (q & Hq & Hpos). now inversion Hq; subst.
    - eauto. }
  assert (Hnone : (exists q : Q, None = Some q /\ (0 < q)%Q) <-> False).
  { split; [intros (q & Hq & _); discriminate | contradiction]. }
  destruct (first_add (LABEL_REWORK config) events) as [r|];
    destruct (first_add (LABEL_IN_REVIEW config) events) as [i|];
    destruct (first_add (LABEL_REWORK_DONE config) events) as [d|];
    cbn [get_default]; rewrite ?Hsome, ?Hnone;
    repeat split;
    try (intros H; exact H);
    try contradiction;
    try (intros (x & y & Hx & Hy & Hlt); congruence);
    try (intros (x & Hx & Hlt); congruence);
    try (intros H; eexists; eexists; repeat split; eassumption);
    try (intros H; eexists; split; [reflexivity | exact H]).
Qed.

Lemma timing_lines_follow_first_adds_witness :
  exists timing,
    time_in_state sample_config (Iso 0) open_log (9 * hour) = Ok timing
    /\ samples_of "gitlab_mr_time_in_review_hours"
         (branch_lines (branch_record sample_config "ops/exporter" (plain_mr 1) timing))
       <> []
    /\ ~ samples_of "gitlab_mr_time_to_complete_hours"
           (branch_lines (branch_record sample_config "ops/exporter" (plain_mr 1) timing))
         <> [].
Proof.
  destruct (timing_lines_follow_first_adds sample_config "ops/exporter" (plain_mr 1)
              0 (9 * hour) open_log) as (timing & Ht & _ & Hreview & Hcomplete).
  - discriminate.
  - discriminate.
  - discriminate.
  - repeat constructor; eexists; reflexivity.
  - exists timing. split; [exact Ht|]. split.
    + apply Hreview. exists (2 * hour). split; reflexivity.
    + intros H. apply Hcomplete in H. destruct H as (d & Hd & _). discriminate.
Defined.

(** ** The upstream calls of a cycle *)

Lemma add_calls_nil st : add_calls [] st = st.
Proof. destruct st. reflexivity. Qed.

Lemma add_calls_app l1 l2 st : add_calls (l1 ++ l2) st = add_calls l2 (add_calls l1 st).
Proof. unfold add_calls. cbn. now rewrite rev_app_distr, app_assoc. Qed.

Lemma logs_ret {A} (a : A) : logs (ret a) (Ok a) [].
Proof. intros st. now rewrite add_calls_nil. Qed.

Lemma logs_bind {A B} (m : M A) (k : A -> M B) a r l1 l2 :
  logs m (Ok a) l1 -> logs (k a) r l2 -> logs (bind m k) r (l1 ++ l2).
Proof.
  intros Hm Hk st. unfold bind. rewrite Hm, Hk. now rewrite add_calls_app.
Qed.

Lemma logs_gitlab_api {A} endpoint (response : option (list A)) :
  logs (gitlab_api endpoint response) (Ok (get_default response [])) [endpoint].
Proof. intros st. unfold gitlab_api. destruct response; reflexivity. Qed.

Lemma logs_for_each {A S} (body : S -> A -> M S) (f : S -> A -> Result S)
    (calls : A -> list Endpoint) xs :
  (forall acc x acc', f acc x = Ok acc' -> logs (body acc x) (Ok acc') (calls x)) ->
  forall acc acc', rfold f acc xs = Ok acc' ->
    logs (for_each body acc xs) (Ok acc') (flat_map calls xs).
Proof.
  intros Hbody. induction xs as [|x rest IH]; intros acc acc' H; cbn [rfold] in H.
  - inversion H. apply logs_ret.
  - destruct (f acc x) as [acc1|e] eqn:E; cbn [rbind] in H; [|discriminate].
    cbn [for_each flat_map]. eapply logs_bind; [apply Hbody; exact E | now apply IH].
Qed.

Lemma map_as_flat_map {A B} (g : A -> B) xs : map g xs = flat_map (fun x => [g x]) xs.
Proof. induction xs as [|x xs IH]; cbn; [reflexivity | now rewrite IH]. Qed.

Section CycleCalls.

Variable config : Config.
Variable env : Env.

(** An item costs one call, whether its reduction returns or raises. *)
Lemma logs_process_mr project_name project_id acc mr :
  logs (process_mr config env project_name project_id acc mr)
       (item_step config env project_name project_id acc mr)
       [EpLabelEvents project_id (mr_iid mr)].
Proof.
  intros st.
  unfold process_mr, calculate_time_in_state, get_mr_label_events, item_step, reduce_item,
    bind, gitlab_api, lift, ret.
  destruct (label_events env project_id (mr_iid mr)); cbn [get_default];
    match goal with
    | |- context [time_in_state ?c ?cr ?evs ?n] => destruct (time_in_state c cr evs n)
    end; reflexivity.
Qed.

Lemma logs_process_project acc project acc' :
  project_step config env acc project = Ok acc' ->
  logs (process_project config env acc project) (Ok acc') (project_calls env project).
Proof.
  intros H. unfold process_project, get_merge_requests, project_calls.
  change (EpMergeRequests (proj_id project) :: ?l)
    with ([EpMergeRequests (proj_id project)] ++ l).
  eapply logs_bind; [apply logs_gitlab_api|].
  rewrite map_as_flat_map.
  eapply logs_for_each; [|exact H].
  intros acc0 mr acc1 E. rewrite <- E. apply logs_process_mr.
Qed.

Lemma logs_find_project projects repo_name :
  logs (find_project env projects repo_name)
       (Ok (projects ++ resolved_project env repo_name)) [EpProjects repo_name].
Proof.
  intros st. unfold find_project, resolved_project, bind, gitlab_api, ret.
  destruct (search_projects env repo_name); cbn [get_default];
    match goal with
    | |- context [match_project ?r ?n] => destruct (match_project r n)
    end; rewrite ?app_nil_r; reflexivity.
Qed.

Lemma logs_get_all_projects :
  logs (get_all_projects config env) (Ok (resolved_projects config env))
       (map EpProjects (REPOSITORIES config)).
Proof.
  unfold get_all_projects, resolved_projects. rewrite map_as_flat_map.
  eapply (logs_for_each _ (fun ps r => Ok (ps ++ resolved_project env r))).
  - intros acc r acc' E. inversion E. apply logs_find_project.
  - apply (rfold_resolved env (REPOSITORIES config) []).
Qed.

(** A cycle that returns has made the calls of [cycle_calls], in order. *)
Lemma logs_collect acc :
  collected config env = Ok acc ->
  logs (collect config env) (Ok acc) (cycle_calls config env).
Proof.
  intros H. unfold collect, cycle_calls.
  eapply logs_bind; [apply logs_get_all_projects|].
  eapply logs_for_each; [|exact H].
  intros acc0 project acc1. apply logs_process_project.
Qed.

End CycleCalls.

Lemma cycle_calls_length config env :
  List.length (cycle_calls config env)
  = (List.length (REPOSITORIES config)
     + List.length (resolved_projects config env)
     + List.length (work_items config env))%nat.
Proof.
  unfold cycle_calls, work_items. rewrite length_app, length_map.
  rewrite <- Nat.add_assoc. f_equal.
  induction (resolved_projects config env) as [|p ps IH]; [reflexivity|].
  cbn [flat_map]. rewrite !length_app, IH. unfold project_calls.
  cbn [List.length]. rewrite !length_map. lia.
Qed.

(** X6.  A scrape outside the window whose collection returns makes, in this
    order, one search call per configured name, then for each resolved
    project one call for its items followed by one label-event call per
    item: as many calls as there are configured names, resolved projects and
    open items together.  Nothing else is added to the call log. *)
Theorem upstream_calls_of_a_cycle
    (config : Config) (env : Env) (now : Q) (st : State) (acc : Acc) :
  ~ (fl (now - last_update (metrics_cache st)) < 10)%Q ->
  collected config env = Ok acc ->
  api_calls (snd (collect_metrics config env now st))
    = rev (cycle_calls config env) ++ api_calls st
  /\ List.length (cycle_calls config env)
     = (List.length (REPOSITORIES config)
        + List.length (resolved_projects config env)
        + List.length (work_items config env))%nat.
Proof.
  intros Hstale Hacc. split; [|apply cycle_calls_length].
  pose proof (logs_collect config env acc Hacc st) as Hc.
  rewrite (collect_metrics_stale _ _ _ _ _ _ Hstale Hc).
  destruct (alert_and_store_run config env now acc (add_calls (cycle_calls config env) st))
    as (st' & Hrun & _ & Hcalls & _).
  rewrite Hrun. cbn [snd]. rewrite Hcalls. reflexivity.
Qed.

Lemma upstream_calls_of_a_cycle_witness :
  api_calls (snd (collect_metrics sample_config (cycle_env 2) 100 initial_state))
  = [EpLabelEvents 7 2; EpLabelEvents 7 1; EpMergeRequests 7; EpProjects "exporter"].
Proof.
  destruct (collected_total sample_config (cycle_env 2) (cycle_env_dated 2)) as [acc Hacc].
  destruct (upstream_calls_of_a_cycle sample_config (cycle_env 2) 100 initial_state acc)
    as [Hcalls _].
  - intros H. vm_compute in H. discriminate.
  - exact Hacc.
  - rewrite Hcalls. reflexivity.
Defined.

(** ** The resolution of the configured names *)

Lemma match_project_first result repo_name proj :
  match_project result repo_name = Some proj ->
  exists before after,
    result = before ++ proj :: after
    /\ matches_name repo_name proj = true
    /\ Forall (fun q => matches_name repo_name q = false) before.
Proof.
  unfold match_project.
  change (fun proj0 : Project =>
            ((proj_path proj0 =? repo_name)%string
             || (proj_name proj0 =? repo_name)%string)%bool)
    with (matches_name repo_name).
  induction result as [|q rest IH]; cbn [find]; [discriminate|].
  destruct (matches_name repo_name q) eqn:E.
  - intros H. inversion H; subst q. exists [], rest. repeat split; [exact E | constructor].
  - intros H. destruct (IH H) as (before & after & -> & Hm & Hb).
    exists (q :: before), after. repeat split; [exact Hm | now constructor].
Qed.

(** X7.  [get_all_projects] never raises and makes exactly one search call
    per configured name, in the order of the configuration.  It keeps at
    most one project per name: the first search result whose path or name is
    the configured name; a name whose search fails or matches nothing adds
    no project. *)
Theorem get_all_projects_resolves (config : Config) (env : Env) (st : State) :
  get_all_projects config env st
    = (Ok (resolved_projects config env),
       add_calls (map EpProjects (REPOSITORIES config)) st)
  /\ (List.length (resolved_projects config env) <= List.length (REPOSITORIES config))%nat
  /\ (forall proj, In proj (resolved_projects config env) ->
        exists repo_name result before after,
          In repo_name (REPOSITORIES config)
          /\ search_projects env repo_name = Some result
          /\ result = before ++ proj :: after
          /\ matches_name repo_name proj = true
          /\ Forall (fun q => matches_name repo_name q = false) before)
  /\ (forall repo_name,
        search_projects env repo_name = None -> resolved_project env repo_name = []).
Proof.
  split; [apply logs_get_all_projects|]. split; [|split].
  - unfold resolved_projects.
    induction (REPOSITORIES config) as [|r names IH]; [apply Nat.le_refl|].
    cbn [flat_map]. rewrite length_app. cbn [List.length].
    unfold resolved_project at 1.
    destruct (match_project _ r); cbn [List.length]; lia.
  - intros proj Hin. unfold resolved_projects in Hin.
    apply in_flat_map in Hin. destruct Hin as (r & Hr & Hp).
    unfold resolved_project in Hp.
    destruct (match_project (get_default (search_projects env r) []) r) as [p|] eqn:E;
      [|destruct Hp].
    destruct Hp as [<-|[]].
    destruct (search_projects env r) as [result|] eqn:Es; cbn [get_default] in E;
      [|discriminate].
    destruct (match_project_first _ _ _ E) as (before & after & Hres & Hm & Hb).
    exists r, result, before, after. auto.
  - intros r E. unfold resolved_project. rewrite E. reflexivity.
Qed.

(** ** The counters of a snapshot *)

Lemma dict_update_eq {V} (dflt : V) d k f :
  dict_update dflt d k f = dict_set d k (f (get_default (dict_get d k) dflt)).
Proof. unfold dict_update. destruct (dict_get d k); reflexivity. Qed.

Lemma dict_set_set {V} (d : Dict V) k v w : dict_set (dict_set d k v) k w = dict_set d k w.
Proof.
  induction d as [|[k' v'] rest IH]; cbn.
  - now rewrite String.eqb_refl.
  - destruct (k' =? k)%string eqn:E; cbn.
    + now rewrite String.eqb_refl.
    + now rewrite E, IH.
Qed.

Lemma dict_update_update (d : Dict Stats) k f g :
  dict_update zero_stats (dict_update zero_stats d k f) k g
  = dict_update zero_stats d k (fun s => g (f s)).
Proof.
  rewrite (dict_update_eq zero_stats (dict_update zero_stats d k f)).
  rewrite dict_get_update_same. cbn [get_default].
  rewrite !dict_update_eq, dict_set_set. reflexivity.
Qed.

(** The counters after an item: one update of the entry of its project. *)
Lemma record_mr_metrics config project_name acc mr timing :
  acc_metrics (record_mr config project_name acc mr timing)
  = dict_set (acc_metrics acc) project_name
      (item_counts config mr (stats_at (acc_metrics acc) project_name)).
Proof.
  unfold record_mr, count_rework, count_states, item_counts, stats_at.
  destruct (mem_string (LABEL_REWORK config) (mr_labels mr));
    destruct (assigned_to_me config mr);
    destruct (mem_string (LABEL_IN_REVIEW config) (mr_labels mr));
    destruct (mem_string (LABEL_REWORK_DONE config) (mr_labels mr));
    cbn [acc_metrics];
    rewrite ?dict_update_update; rewrite dict_update_eq; reflexivity.
Qed.

Lemma record_mr_records config project_name acc mr timing :
  acc_branch_metrics (record_mr config project_name acc mr timing)
  = acc_branch_metrics acc ++ [branch_record config project_name mr timing].
Proof.
  unfold record_mr. destruct (count_rework config project_name mr _ _). reflexivity.
Qed.

Lemma record_mr_alerts config project_name acc mr timing :
  acc_rework_mrs (record_mr config project_name acc mr timing)
  = acc_rework_mrs acc
    ++ (if mine config mr then [alert_item project_name mr] else []).
Proof.
  pose proof (record_mr_assigned config project_name acc mr timing) as H.
  cbv zeta in H. unfold mine.
  destruct (mem_string (LABEL_REWORK config) (mr_labels mr) && assigned_to_me config mr)%bool;
    destruct H as [_ ->]; [reflexivity | now rewrite app_nil_r].
Qed.

Lemma item_counts_ordered config mr s : stats_ordered s -> stats_ordered (item_counts config mr s).
Proof.
  unfold stats_ordered, item_counts. intros (H1 & H2 & H3 & H4).
  destruct (mem_string (LABEL_REWORK config) (mr_labels mr));
    destruct (assigned_to_me config mr);
    destruct (mem_string (LABEL_IN_REVIEW config) (mr_labels mr));
    destruct (mem_string (LABEL_REWORK_DONE config) (mr_labels mr));
    cbn; lia.
Qed.

Lemma dict_set_Forall {V} (P : V -> Prop) (d : Dict V) k v :
  Forall (fun kv => P (snd kv)) d -> P v ->
  Forall (fun kv => P (snd kv)) (dict_set d k v).
Proof.
  intros Hd Hv. induction d as [|[k' v'] rest IH]; cbn.
  - repeat constructor. exact Hv.
  - inversion Hd; subst. destruct (k' =? k)%string; constructor; auto.
Qed.

Lemma dict_get_Forall {V} (P : V -> Prop) (d : Dict V) k v :
  Forall (fun kv => P (snd kv)) d -> dict_get d k = Some v -> P v.
Proof.
  intros Hd. induction d as [|[k' v'] rest IH]; cbn; [discriminate|].
  inversion Hd; subst. destruct (k' =? k)%string.
  - intros E. inversion E; subst. assumption.
  - auto.
Qed.

(** A fold keeps what each of its steps keeps. *)
Lemma rfold_invariant {A S} (f : S -> A -> Result S) (P : S -> Prop) xs :
  (forall s x s', f s x = Ok s' -> P s -> P s') ->
  forall s s', P s -> rfold f s xs = Ok s' -> P s'.
Proof.
  intros Hstep. induction xs as [|x xs IH]; intros s s' Hs H; cbn [rfold] in H.
  - inversion H; subst. exact Hs.
  - destruct (f s x) as [a|e] eqn:E; cbn [rbind] in H; [|discriminate].
    eapply IH; [|exact H]. eapply Hstep; eassumption.
Qed.

Lemma zero_stats_ordered : stats_ordered zero_stats.
Proof. unfold stats_ordered. cbn. lia. Qed.

Lemma stats_at_ordered d k :
  Forall (fun kv => stats_ordered (snd kv)) d -> stats_ordered (stats_at d k).
Proof.
  intros Hd. unfold stats_at. destruct (dict_get d k) eqn:E; cbn [get_default].
  - eapply dict_get_Forall; eassumption.
  - apply zero_stats_ordered.
Qed.

Lemma collected_stats_ordered (config : Config) (env : Env) (acc : Acc) :
  collected config env = Ok acc ->
  Forall (fun kv => stats_ordered (snd kv)) (acc_metrics acc).
Proof.
  intros H. unfold collected in H.
  apply (rfold_invariant _ (fun a => Forall (fun kv => stats_ordered (snd kv)) (acc_metrics a)))
    in H; [exact H| |constructor].
  intros a project a' Hstep Ha. unfold project_step in Hstep.
  apply (rfold_invariant _ (fun a => Forall (fun kv => stats_ordered (snd kv)) (acc_metrics a)))
    in Hstep; [exact Hstep| |].
  - intros b mr b' Hitem Hb. unfold item_step in Hitem.
    destruct (reduce_item config env (proj_id project) mr); cbn [rbind] in Hitem;
      [|discriminate].
    injection Hitem as <-. rewrite record_mr_metrics.
    apply dict_set_Forall; [exact Hb|].
    apply item_counts_ordered. now apply stats_at_ordered.
  - cbn [acc_metrics]. apply dict_set_Forall; [exact Ha | apply zero_stats_ordered].
Qed.

(** X8.  In the snapshot of a cycle the five counters of every project fit
    together: the items under rework assigned to me are among the items
    under rework, and these, the items in review and the items with rework
    done are each among all the items. *)
Theorem counters_fit_together (config : Config) (env : Env) (acc : Acc) :
  collected config env = Ok acc ->
  forall n s, dict_get (acc_metrics acc) n = Some s -> stats_ordered s.
Proof.
  intros H n s Hs.
  apply (dict_get_Forall stats_ordered (acc_metrics acc) n s); [|exact Hs].
  now apply (collected_stats_ordered config env).
Qed.

Lemma counters_fit_together_witness : stats_ordered (mkStats 1 1 1 0 0).
Proof.
  eapply (counters_fit_together two_config two_project_env) with (n := "ops/exporter").
  - vm_compute. reflexivity.
  - reflexivity.
Defined.

(** ** The keys of a snapshot *)

Lemma keys_dict_set_in {V} (d : Dict V) k v n :
  In n (keys (dict_set d k v)) <-> n = k \/ In n (keys d).
Proof.
  unfold keys. induction d as [|[k' v'] rest IH]; cbn.
  - split; [intros [<-|[]]; auto | intros [->|[]]; auto].
  - destruct (k' =? k)%string eqn:E; cbn.
    + apply String.eqb_eq in E. subst k'. split; intros G; intuition (subst; auto).
    + rewrite IH. split; intros G; intuition (subst; auto).
Qed.

Lemma keys_dict_set_present {V} (d : Dict V) k v :
  In k (keys d) -> keys (dict_set d k v) = keys d.
Proof.
  unfold keys. induction d as [|[k' v'] rest IH]; cbn; [contradiction|].
  intros Hin. destruct (k' =? k)%string eqn:E; cbn.
  - apply String.eqb_eq in E. now subst.
  - f_equal. apply IH. destruct Hin as [->|H]; [|exact H].
    rewrite String.eqb_refl in E. discriminate.
Qed.

Lemma keys_dict_set_nodup {V} (d : Dict V) k v :
  NoDup (keys d) -> NoDup (keys (dict_set d k v)).
Proof.
  unfold keys. induction d as [|[k' v'] rest IH]; cbn; intros Hd.
  - repeat constructor. intros [].
  - inversion Hd as [|? ? Hnin Hrest]; subst.
    destruct (k' =? k)%string eqn:E; cbn.
    + apply String.eqb_eq in E. subst k'. now constructor.
    + constructor; [|now apply IH].
      intros Hin. apply (keys_dict_set_in rest k v k') in Hin.
      destruct Hin as [->|Hin]; [|contradiction].
      rewrite String.eqb_refl in E. discriminate.
Qed.

Lemma dict_get_none_keys {V} (d : Dict V) k : dict_get d k = None <-> ~ In k (keys d).
Proof.
  unfold keys. induction d as [|[k' v'] rest IH]; cbn.
  - tauto.
  - destruct (k' =? k)%string eqn:E.
    + apply String.eqb_eq in E. subst. split; [discriminate | tauto].
    + apply String.eqb_neq in E. rewrite IH. tauto.
Qed.

Lemma Forall2_in_r {A B} (P : A -> B -> Prop) xs ys y :
  Forall2 P xs ys -> In y ys -> exists x, In x xs /\ P x y.
Proof.
  intros H. induction H as [|x0 y0 xs ys Hxy _ IH]; intros Hin; [destruct Hin|].
  destruct Hin as [<-|Hin].
  - exists x0. split; [now left | exact Hxy].
  - destruct (IH Hin) as (x & Hx & Hp). exists x. split; [now right | exact Hp].
Qed.

Section Keys.

Variable config : Config.
Variable env : Env.

(** The items of a project leave the keys as they are. *)
Lemma project_step_keys acc project acc' :
  project_step config env acc project = Ok acc' ->
  keys (acc_metrics acc')
  = keys (dict_set (acc_metrics acc) (project_name_of project) zero_stats).
Proof.
  intros H. unfold project_step in H.
  set (K := keys (dict_set (acc_metrics acc) (project_name_of project) zero_stats)).
  apply (rfold_invariant _ (fun a => keys (acc_metrics a) = K)) in H; [exact H| |reflexivity].
  intros b mr b' Hitem Hb. unfold item_step in Hitem.
  destruct (reduce_item config env (proj_id project) mr); cbn [rbind] in Hitem;
    [|discriminate].
  injection Hitem as <-. rewrite record_mr_metrics, keys_dict_set_present; [exact Hb|].
  rewrite Hb. subst K. apply keys_dict_set_in. now left.
Qed.

Lemma projects_fold_keys projects : forall acc acc',
  rfold (project_step config env) acc projects = Ok acc' ->
  NoDup (keys (acc_metrics acc)) ->
  NoDup (keys (acc_metrics acc'))
  /\ forall n, In n (keys (acc_metrics acc'))
               <-> In n (keys (acc_metrics acc)) \/ In n (map project_name_of projects).
Proof.
  induction projects as [|p ps IH]; intros acc acc' H Hnd; cbn [rfold] in H.
  - inversion H; subst. split; [exact Hnd|]. intros n. cbn. tauto.
  - destruct (project_step config env acc p) as [acc1|e] eqn:E; cbn [rbind] in H;
      [|discriminate].
    pose proof (project_step_keys _ _ _ E) as K1.
    destruct (IH _ _ H) as [Hnd' Hin'].
    { rewrite K1. now apply keys_dict_set_nodup. }
    split; [exact Hnd'|].
    intros n. rewrite Hin', K1, keys_dict_set_in. cbn [map In].
    split; intros G; intuition (subst; auto).
Qed.

End Keys.

Lemma collected_keys (config : Config) (env : Env) (acc : Acc) :
  collected config env = Ok acc ->
  NoDup (keys (acc_metrics acc))
  /\ (forall n, In n (keys (acc_metrics acc))
                <-> exists proj, In proj (resolved_projects config env)
                                 /\ project_name_of proj = n)
  /\ (forall r, In r (acc_branch_metrics acc) -> In (bd_project r) (keys (acc_metrics acc)))
  /\ (forall a, In a (acc_rework_mrs acc) -> In (ai_project a) (keys (acc_metrics acc))).
Proof.
  intros H.
  destruct (projects_fold_keys config env _ _ _ H) as [Hnd Hkeys]; [constructor|].
  assert (Hnames : forall n, In n (keys (acc_metrics acc))
                     <-> exists proj, In proj (resolved_projects config env)
                                      /\ project_name_of proj = n).
  { intros n. rewrite Hkeys, in_map_iff. cbn. split.
    - intros [[]|(p & Hp & Hin)]. eauto.
    - intros (p & Hin & Hp). right. eauto. }
  assert (Hitem : forall item, In item (work_items config env) ->
                    In (project_name_of (fst item)) (keys (acc_metrics acc))).
  { intros [p mr] Hin. unfold work_items in Hin. apply in_flat_map in Hin.
    destruct Hin as (p' & Hp' & Hin). apply in_map_iff in Hin.
    destruct Hin as (mr' & E & _). inversion E; subst. apply Hnames. eauto. }
  split; [exact Hnd|]. split; [exact Hnames|]. split.
  - intros r Hr.
    destruct (Forall2_in_r _ _ _ _ (collected_records config env acc H) Hr)
      as (item & Hin & timing & _ & ->).
    unfold branch_record. destruct timing as [[? ?] ?]. cbn [bd_project].
    now apply Hitem.
  - intros a Ha. rewrite (collected_alert_list config env acc H) in Ha.
    unfold alert_items_of in Ha. apply in_flat_map in Ha.
    destruct Ha as (item & Hin & Ha). destruct (mine config (snd item)); [|destruct Ha].
    destruct Ha as [<-|[]]. cbn [alert_item ai_project]. now apply Hitem.
Qed.

(** X9.  The project counters of a snapshot have one entry per project name,
    never two, also when two configured names resolve to projects of the
    same name; the names are those of the resolved projects; and every
    per-item record and every alert item belongs to a project that has its
    counters. *)
Theorem one_counter_block_per_project (config : Config) (env : Env) (acc : Acc) :
  collected config env = Ok acc ->
  NoDup (keys (acc_metrics acc))
  /\ (forall n, In n (keys (acc_metrics acc))
                <-> exists proj, In proj (resolved_projects config env)
                                 /\ project_name_of proj = n)
  /\ (forall r, In r (acc_branch_metrics acc) -> In (bd_project r) (keys (acc_metrics acc)))
  /\ (forall a, In a (acc_rework_mrs acc) -> In (ai_project a) (keys (acc_metrics acc))).
Proof. apply collected_keys. Qed.

Lemma one_counter_block_per_project_witness :
  exists acc,
    collected twice_config (cycle_env 1) = Ok acc
    /\ List.length (resolved_projects twice_config (cycle_env 1)) = 2%nat
    /\ NoDup (keys (acc_metrics acc)).
Proof.
  destruct (collected_total twice_config (cycle_env 1) (cycle_env_dated 1)) as [acc H].
  exists acc. split; [exact H|]. split; [reflexivity|].
  apply (one_counter_block_per_project twice_config (cycle_env 1) acc H).
Defined.

(** ** The counters against the records *)

Lemma filter_both {A} (f g : A -> bool) xs :
  filter (fun x => f x && g x) xs = filter g (filter f xs).
Proof.
  induction xs as [|x xs IH]; cbn; [reflexivity|].
  destruct (f x); cbn; [destruct (g x); now rewrite IH | exact IH].
Qed.

Lemma filter_all {A} (xs : list A) : filter (fun _ => true) xs = xs.
Proof. induction xs as [|x xs IH]; cbn; [reflexivity | now rewrite IH]. Qed.

Lemma count_records_by_view n flag records :
  count_records n flag records
  = List.length (filter flag (filter (fun r => (bd_project r =? n)%string) records)).
Proof. unfold count_records. now rewrite filter_both. Qed.

Lemma counted_view n a b : view n a = view n b -> counted n a -> counted n b.
Proof.
  unfold view, counted. intros H. inversion H as [[Hm Hr Ha]].
  rewrite !count_records_by_view, Hm, Hr, Ha. exact (fun x => x).
Qed.

Section Counted.

Variable config : Config.
Variable env : Env.
Variable n : string.

(** An item of the project named [n] moves the counters and the records of
    [n] together. *)
Lemma counted_record acc mr timing s :
  dict_get (acc_metrics acc) n = Some s ->
  counted n acc ->
  counted n (record_mr config n acc mr timing)
  /\ exists s', dict_get (acc_metrics (record_mr config n acc mr timing)) n = Some s'.
Proof.
  intros Hs. unfold counted. rewrite Hs.
  rewrite record_mr_metrics, dict_get_set_same, record_mr_records, record_mr_alerts.
  intros (Ht & Hr & Hi & Hd & Ha). split; [|eauto].
  unfold stats_at. rewrite Hs. cbn [get_default].
  unfold count_records in *. rewrite !filter_app, !length_app.
  rewrite <- Ht, <- Hr, <- Hi, <- Hd, <- Ha.
  unfold branch_record, item_counts, mine. destruct timing as [[? ?] ?].
  cbn [filter bd_project bd_has_rework bd_has_in_review bd_has_rework_done].
  rewrite String.eqb_refl. cbn [andb].
  destruct (mem_string (LABEL_REWORK config) (mr_labels mr));
    destruct (assigned_to_me config mr);
    destruct (mem_string (LABEL_IN_REVIEW config) (mr_labels mr));
    destruct (mem_string (LABEL_REWORK_DONE config) (mr_labels mr));
    cbn [andb filter alert_item ai_project]; rewrite ?String.eqb_refl;
    cbn; repeat split; lia.
Qed.

(** A project named [n] that has no entry yet ends with counters that are
    those of its records. *)
Lemma counted_project acc project acc' :
  project_name_of project = n ->
  dict_get (acc_metrics acc) n = None ->
  counted n acc ->
  project_step config env acc project = Ok acc' ->
  counted n acc'.
Proof.
  intros Hn Hnone Hc H. unfold project_step in H. rewrite Hn in H.
  apply (rfold_invariant _
           (fun a => counted n a /\ exists s, dict_get (acc_metrics a) n = Some s))
    in H; [exact (proj1 H)| |].
  - intros b mr b' Hitem [Hb [s Hs]]. unfold item_step in Hitem.
    destruct (reduce_item config env (proj_id project) mr); cbn [rbind] in Hitem;
      [|discriminate].
    injection Hitem as <-. eapply counted_record; eassumption.
  - unfold counted in Hc |- *. rewrite Hnone in Hc. destruct Hc as [Hrec Hal].
    cbn [acc_metrics acc_branch_metrics acc_rework_mrs].
    rewrite dict_get_set_same. split; [|eauto].
    rewrite count_records_by_view in Hrec. apply length_zero_iff_nil in Hrec.
    rewrite filter_all in Hrec.
    rewrite !count_records_by_view, Hrec, Hal. cbn. repeat split.
Qed.

End Counted.

Lemma projects_fold_counted config env projects : forall acc acc',
  rfold (project_step config env) acc projects = Ok acc' ->
  NoDup (map project_name_of projects) ->
  (forall p, In p projects -> dict_get (acc_metrics acc) (project_name_of p) = None) ->
  (forall n, counted n acc) ->
  forall n, counted n acc'.
Proof.
  induction projects as [|p ps IH]; intros acc acc' H Hnd Hfresh Hc n; cbn [rfold] in H.
  - inversion H; subst. apply Hc.
  - destruct (project_step config env acc p) as [acc1|e] eqn:E; cbn [rbind] in H;
      [|discriminate].
    cbn [map] in Hnd. inversion Hnd as [|? ? Hnin Hnd']; subst.
    apply (IH acc1 acc' H Hnd').
    + intros p' Hin.
      assert (Hne : project_name_of p <> project_name_of p').
      { intros Eq. apply Hnin. rewrite Eq. now apply in_map. }
      pose proof (project_step_view_other config (project_name_of p') env acc p acc1 Hne E)
        as Hv.
      unfold view in Hv. injection Hv as Hm _ _. rewrite Hm.
      apply Hfresh. now right.
    + intros m. destruct (string_dec (project_name_of p) m) as [Eq|Hne].
      * eapply counted_project; [exact Eq| |apply Hc|exact E].
        rewrite <- Eq. apply Hfresh. now left.
      * eapply counted_view; [|apply Hc].
        symmetry. eapply project_step_view_other; eassumption.
Qed.

(** X10.  When no two resolved projects have the same name, the counters of
    each project in the snapshot are the numbers of its per-item records:
    all of them, those flagged rework, in review and rework done; and its
    [rework_assigned_to_me] is the number of its alert items. *)
Theorem counters_count_the_records (config : Config) (env : Env) (acc : Acc) :
  collected config env = Ok acc ->
  NoDup (map project_name_of (resolved_projects config env)) ->
  forall n s, dict_get (acc_metrics acc) n = Some s ->
    total_mrs s = count_records n (fun _ => true) (acc_branch_metrics acc)
    /\ rework_mrs s = count_records n bd_has_rework (acc_branch_metrics acc)
    /\ in_review_mrs s = count_records n bd_has_in_review (acc_branch_metrics acc)
    /\ rework_done_mrs s = count_records n bd_has_rework_done (acc_branch_metrics acc)
    /\ rework_assigned_to_me s
       = List.length (filter (fun a => (ai_project a =? n)%string) (acc_rework_mrs acc)).
Proof.
  intros H Hnd n s Hs.
  assert (Hc : counted n acc).
  { eapply projects_fold_counted; [exact H | exact Hnd | reflexivity |].
    intros m. unfold counted. cbn. split; reflexivity. }
  unfold counted in Hc. rewrite Hs in Hc. exact Hc.
Qed.

Lemma counters_count_the_records_witness :
  exists acc,
    collected two_config two_project_env = Ok acc
    /\ forall s, dict_get (acc_metrics acc) "ops/exporter" = Some s ->
                 rework_mrs s
                 = count_records "ops/exporter" bd_has_rework (acc_branch_metrics acc).
Proof.
  destruct (collected_total two_config two_project_env two_project_env_dated) as [acc H].
  exists acc. split; [exact H|]. intros s Es.
  apply (counters_count_the_records two_config two_project_env acc H) with (n := "ops/exporter").
  - repeat constructor; cbn; intuition discriminate.
  - exact Es.
Defined.

(** ** The lines of a rendering *)

Lemma filter_flat_map {A B} (f : B -> bool) (g : A -> list B) xs :
  filter f (flat_map g xs) = flat_map (fun x => filter f (g x)) xs.
Proof.
  induction xs as [|x xs IH]; cbn; [reflexivity|]. now rewrite filter_app, IH.
Qed.

Lemma flat_map_nil {A B} (xs : list A) : flat_map (fun _ => @nil B) xs = [].
Proof. induction xs as [|x xs IH]; cbn; [reflexivity | exact IH]. Qed.

(** The lines of a series in a rendering: those of the header, of each
    project and of each record. *)
Lemma samples_of_render name data :
  samples_of name (render data)
  = samples_of name header_lines
    ++ flat_map (fun kv => samples_of name (project_lines kv)) (get_project_metrics data)
    ++ flat_map (fun bd => samples_of name (branch_lines bd)) (get_branch_metrics data).
Proof.
  unfold samples_of, render. now rewrite !filter_app, !filter_flat_map.
Qed.

Lemma info_samples bd : samples_of "gitlab_mr_info" (branch_lines bd) = [info_line bd].
Proof.
  unfold samples_of, branch_lines, info_line.
  destruct (Qlt_bool 0 (bd_time_in_rework bd));
    destruct (Qlt_bool 0 (bd_time_in_review bd));
    destruct (Qlt_bool 0 (bd_time_to_complete bd)); reflexivity.
Qed.

Ltac project_series :=
  rewrite samples_of_render;
  rewrite (flat_map_ext _ (fun bd : BranchData => @nil string))
    by (intros bd; unfold samples_of, branch_lines;
        destruct (Qlt_bool 0 (bd_time_in_rework bd));
        destruct (Qlt_bool 0 (bd_time_in_review bd));
        destruct (Qlt_bool 0 (bd_time_to_complete bd)); reflexivity);
  rewrite flat_map_nil, app_nil_r, map_as_flat_map;
  apply flat_map_ext; intros [project stats]; reflexivity.


(** ** The escaping of label values *)

Lemma escape_quotes_guarded s : forall guarded,
  quotes_guarded guarded (escape_quotes s) = true.
Proof.
  induction s as [|c s IH]; intros guarded; cbn; [reflexivity|].
  destruct (c =? "034")%char eqn:E; cbn.
  - apply IH.
  - rewrite E. cbn. apply IH.
Qed.

Lemma escape_quotes_same s : count_quotes s = 0%nat -> escape_quotes s = s.
Proof.
  induction s as [|c s IH]; cbn; [reflexivity|].
  destruct (c =? "034")%char; [discriminate|].
  intros H. now rewrite IH.
Qed.

Lemma escape_quotes_length s :
  String.length (escape_quotes s) = (String.length s + count_quotes s)%nat.
Proof.
  induction s as [|c s IH]; cbn; [reflexivity|].
  destruct (c =? "034")%char; cbn; rewrite IH; lia.
Qed.

Lemma escape_quotes_app a b :
  escape_quotes (a ++ b) = (escape_quotes a ++ escape_quotes b)%string.
Proof.
  induction a as [|c a IH]; cbn; [reflexivity|].
  destruct (c =? "034")%char; cbn; now rewrite IH.
Qed.

Lemma substring_guarded k : forall s guarded,
  quotes_guarded guarded s = true -> quotes_guarded guarded (substring 0 k s) = true.
Proof.
  induction k as [|k IH]; intros s guarded H.
  - destruct s; reflexivity.
  - destruct s as [|c s]; [reflexivity|]. cbn in H |- *.
    apply andb_true_iff in H. destruct H as [H1 H2].
    rewrite H1. cbn. now apply IH.
Qed.

Lemma substring_length_le k : forall s, (String.length (substring 0 k s) <= k)%nat.
Proof.
  induction k as [|k IH]; intros s.
  - destruct s; cbn; lia.
  - destruct s as [|c s]; cbn; [lia|]. specialize (IH s). lia.
Qed.

Lemma substring_is_prefix k : forall s,
  exists rest, s = (substring 0 k s ++ rest)%string.
Proof.
  induction k as [|k IH]; intros s.
  - exists s. destruct s; reflexivity.
  - destruct s as [|c s]; [exists EmptyString; reflexivity|].
    destruct (IH s) as [rest E]. exists rest. cbn. now rewrite <- E.
Qed.

Lemma substring_app_exact a : forall k b,
  substring 0 (String.length a + k) (a ++ b) = (a ++ substring 0 k b)%string.
Proof.
  induction a as [|c a IH]; intros k b; cbn; [reflexivity|]. now rewrite IH.
Qed.

(** X12.  [replace('"', '\\"')] leaves a value without double quote as it
    is, adds one character per double quote, and puts a backslash right
    before every double quote.  The title label, cut to 50 characters after
    the escaping, is a prefix of the escaped title of at most 50 characters,
    and its double quotes are still each right after a backslash. *)
Theorem label_values_are_escaped (s : string) :
  (count_quotes s = 0%nat -> escape_quotes s = s)
  /\ String.length (escape_quotes s) = (String.length s + count_quotes s)%nat
  /\ quotes_guarded false (escape_quotes s) = true
  /\ (String.length (substring 0 50 (escape_quotes s)) <= 50)%nat
  /\ (exists rest, escape_quotes s = (substring 0 50 (escape_quotes s) ++ rest)%string)
  /\ quotes_guarded false (substring 0 50 (escape_quotes s)) = true.
Proof.
  split; [apply escape_quotes_same|].
  split; [apply escape_quotes_length|].
  split; [apply escape_quotes_guarded|].
  split; [apply substring_length_le|].
  split; [apply substring_is_prefix|].
  apply substring_guarded, escape_quotes_guarded.
Qed.

Lemma label_values_are_escaped_witness : escape_quotes "fix-scrape" = "fix-scrape".
Proof. apply (proj1 (label_values_are_escaped "fix-scrape")). reflexivity. Defined.

(** X13.  The title is cut after the escaping, so the cut can fall inside an
    escape: when the 50th character of the title is a double quote and no
    other comes before it, the title label is the 49 characters before it
    followed by a lone backslash. *)
Theorem title_cut_inside_an_escape (t rest : string) :
  String.length t = 49%nat ->
  count_quotes t = 0%nat ->
  substring 0 50 (escape_quotes (t ++ String "034"%char rest))
  = (t ++ String "\"%char EmptyString)%string.
Proof.
  intros Hlen Hq. rewrite escape_quotes_app, (escape_quotes_same t Hq). cbn [escape_quotes].
  rewrite Ascii.eqb_refl.
  change 50%nat with (49 + 1)%nat. rewrite <- Hlen.
  rewrite substring_app_exact. reflexivity.
Qed.

Lemma title_cut_inside_an_escape_witness :
  substring 0 50
    (escape_quotes
       ("Replace the hard-coded timeout of the HTTP client"
        ++ String "034"%char "by a setting"))
  = ("Replace the hard-coded timeout of the HTTP client"
     ++ String "\"%char EmptyString)%string.
Proof.
  apply (title_cut_inside_an_escape "Replace the hard-coded timeout of the HTTP client").
  - reflexivity.
  - reflexivity.
Defined.

(** ** An item without a proper date *)

Lemma scan_events_undated config events :
  Exists (fun ev => undated (ev_created_at ev) = true) events ->
  forall a, exists e, scan_events config a events = Raise e.
Proof.
  induction 1 as [ev rest H|ev rest H IH]; intros a; cbn [scan_events].
  - unfold scan_event.
    destruct (ev_created_at ev); try discriminate; cbn [fromisoformat rbind]; eauto.
  - destruct (scan_event config a ev) as [a1|e]; cbn [rbind]; [apply IH | eauto].
Qed.

Lemma time_in_state_broken config created events now :
  events <> [] ->
  undated created = true \/ Exists (fun ev => undated (ev_created_at ev) = true) events ->
  exists e, time_in_state config created events now = Raise e.
Proof.
  intros Hne H. unfold time_in_state. destruct events as [|ev rest]; [contradiction|].
  destruct created as [| |c]; cbn [fromisoformat rbind]; eauto.
  destruct H as [H|H]; [discriminate|].
  destruct (scan_events_undated config _ H no_added) as [e E]. rewrite E.
  cbn [rbind]. eauto.
Qed.

(** A fold raises when the step raises on one of the elements, whatever the
    accumulator: there or before. *)
Lemma rfold_raises {A S} (f : S -> A -> Result S) xs x :
  In x xs -> (forall acc, exists e, f acc x = Raise e) ->
  forall acc, exists e, rfold f acc xs = Raise e.
Proof.
  intros Hin Hx. induction xs as [|y ys IH]; [destruct Hin|]. intros acc. cbn [rfold].
  destruct Hin as [->|Hin].
  - destruct (Hx acc) as [e E]. rewrite E. cbn [rbind]. eauto.
  - destruct (f acc y) as [a|e]; cbn [rbind]; [now apply IH | eauto].
Qed.

Lemma collected_raises config env :
  Exists (item_broken env) (work_items config env) ->
  exists e, collected config env = Raise e.
Proof.
  intros H. apply Exists_exists in H. destruct H as ([project mr] & Hin & Hne & Hbad).
  unfold item_events in Hne, Hbad. cbn [fst snd] in Hne, Hbad.
  unfold work_items in Hin. apply in_flat_map in Hin. destruct Hin as (p & Hp & Hin).
  apply in_map_iff in Hin. destruct Hin as (mr' & E & Hmr). injection E as -> ->.
  unfold collected. apply (rfold_raises _ _ project Hp). intros acc.
  unfold project_step. apply (rfold_raises _ _ mr Hmr). intros acc'.
  unfold item_step, reduce_item.
  destruct (time_in_state_broken config (mr_created_at mr) _
              (datetime_now env (proj_id project) (mr_iid mr)) Hne Hbad) as [e E].
  rewrite E. cbn [rbind]. eauto.
Qed.

(** A scrape outside the window, when the collection raises. *)
Lemma collect_metrics_raises config env now st e st_c :
  ~ (fl (now - last_update (metrics_cache st)) < 10)%Q ->
  collect config env st = (Raise e, st_c) ->
  collect_metrics config env now st = (Raise e, st_c).
Proof.
  intros H Hc. apply Qlt_bool_false in H.
  unfold collect_metrics, bind at 1, get_cache. rewrite H.
  unfold bind. rewrite Hc. reflexivity.
Qed.

Lemma alert_and_store_mail config env now acc st :
  outbox (snd (alert_and_store config env now acc st))
  = if should_alert (metrics_cache st) (acc_rework_mrs acc)
       && configured config && smtp_delivers env
    then mkEmail alert_subject (alert_body (acc_rework_mrs acc)) :: outbox st
    else outbox st.
Proof.
  unfold alert_and_store, bind, get_cache, put_cache, send_email_alert, ret, configured.
  destruct (should_alert (metrics_cache st) (acc_rework_mrs acc)); cbn; [|reflexivity].
  destruct (truthy (SMTP_USER config) && truthy (SMTP_PASSWORD config)
            && truthy (YOUR_EMAIL config) && smtp_delivers env)%bool; reflexivity.
Qed.

(** X14.  An open item that has label events and whose creation date, or
    the date of one of its events, is absent or no date makes the cycle it
    is met in raise, wherever it stands among the items and whatever the
    other items are.  The request of that cycle is answered by an empty 500;
    the cache, the alert log and the mails are as before it, so nothing of
    the cycle is stored or sent. *)
Theorem broken_item_fails_the_request
    (config : Config) (env : Env) (now : Q) (st : State) :
  ~ (fl (now - last_update (metrics_cache st)) < 10)%Q ->
  Exists (item_broken env) (work_items config env) ->
  (exists e, collected config env = Raise e)
  /\ exists st',
       do_GET config env "/metrics" now st = (Ok (mkResponse 500 None EmptyString), st')
       /\ metrics_cache st' = metrics_cache st
       /\ alert_calls st' = alert_calls st
       /\ outbox st' = outbox st.
Proof.
  intros Hs Hbroken. destruct (collected_raises config env Hbroken) as [e E].
  split; [eauto|].
  destruct (runs_as_collect config env st) as (st_c & Hc & Hcache & Halerts & Hout & _).
  rewrite E in Hc. exists st_c.
  unfold do_GET. cbn [String.eqb Ascii.eqb Bool.eqb].
  rewrite (collect_metrics_raises config env now st e st_c Hs Hc). auto.
Qed.

Lemma broken_item_fails_the_request_witness :
  (exists e, collected sample_config (sample_env [plain_mr 1; rework_mr 2] bad_events)
             = Raise e)
  /\ exists st',
       do_GET sample_config (sample_env [plain_mr 1; rework_mr 2] bad_events)
         "/metrics" 100 initial_state
       = (Ok (mkResponse 500 None EmptyString), st')
       /\ metrics_cache st' = metrics_cache initial_state
       /\ alert_calls st' = alert_calls initial_state
       /\ outbox st' = outbox initial_state.
Proof.
  apply (broken_item_fails_the_request sample_config
           (sample_env [plain_mr 1; rework_mr 2] bad_events) 100%Q initial_state).
  - intros H. vm_compute in H. discriminate.
  - apply Exists_exists. exists (sample_project, rework_mr 2).
    split; [right; left; reflexivity|].
    split; [vm_compute; discriminate|].
    right. vm_compute. constructor. reflexivity.
Defined.

(** ** A run of requests *)

(** One request either leaves the cache and the mails alone, or it is a
    [/metrics] request whose cycle returned: the cache is the one of that
    cycle, and at most the mail of that cycle left. *)
Lemma do_GET_step config env path now st :
  (metrics_cache (snd (do_GET config env path now st)) = metrics_cache st
   /\ outbox (snd (do_GET config env path now st)) = outbox st)
  \/ (path = "/metrics"
      /\ exists acc,
           collected config env = Ok acc
           /\ metrics_cache (snd (do_GET config env path now st)) = cache_of now acc
           /\ outbox (snd (do_GET config env path now st))
              = if should_alert (metrics_cache st) (acc_rework_mrs acc)
                   && configured config && smtp_delivers env
                then mkEmail alert_subject (alert_body (acc_rework_mrs acc)) :: outbox st
                else outbox st).
Proof.
  unfold do_GET. destruct (path =? "/metrics")%string eqn:Ep; [|left; split; reflexivity].
  apply String.eqb_eq in Ep.
  destruct (Qlt_le_dec (fl (now - last_update (metrics_cache st))) 10) as [Hf|Hs].
  - rewrite (collect_metrics_fresh config env now st Hf). left. split; reflexivity.
  - apply Qle_not_lt in Hs.
    destruct (runs_as_collect config env st) as (st_c & Hc & Hcache & Halerts & Hout & _).
    destruct (collected config env) as [acc|e] eqn:Eacc.
    + right. split; [exact Ep|]. exists acc. split; [reflexivity|].
      destruct (alert_and_store_run config env now acc st_c) as (st' & Hrun & Hcache' & _).
      pose proof (alert_and_store_mail config env now acc st_c) as Hmail.
      rewrite (collect_metrics_stale _ _ _ _ _ _ Hs Hc), Hrun.
      rewrite Hrun in Hmail. cbn [snd] in *. rewrite Hcache, Hout in Hmail.
      split; [exact Hcache'|exact Hmail].
    + rewrite (collect_metrics_raises _ _ _ _ _ _ Hs Hc). left. cbn [snd]. auto.
Qed.

Lemma scrapes_cons config path env now rest st :
  snd (scrapes config ((path, env, now) :: rest) st)
  = snd (scrapes config rest (snd (do_GET config env path now st))).
Proof.
  cbn [scrapes]. destruct (do_GET config env path now st) as [[response|e] st1]; cbn [snd].
  - destruct (scrapes config rest st1). reflexivity.
  - reflexivity.
Qed.

Lemma alert_items_length config items :
  (List.length (alert_items_of config items) <= List.length items)%nat.
Proof.
  induction items as [|item items IH]; [apply le_n|].
  unfold alert_items_of in *. cbn [flat_map].
  rewrite length_app. destruct (mine config (snd item)); cbn [List.length]; lia.
Qed.

(** The cache of a completed cycle is sound. *)
Lemma collected_cache_sound config env now acc :
  collected config env = Ok acc -> cache_sound (cache_of now acc).
Proof.
  intros H. unfold cache_sound, cache_of. cbn [data last_rework_count].
  destruct (collected_keys config env acc H) as (Hnd & _ & Hrec & _).
  split; [|split; [exact Hnd|split]].
  - exists (List.length (acc_rework_mrs acc)). split; [reflexivity|].
    rewrite (collected_alert_list config env acc H).
    rewrite <- (Forall2_length (collected_records config env acc H)).
    apply alert_items_length.
  - now apply (collected_stats_ordered config env).
  - apply Forall_forall. exact Hrec.
Qed.

(** X16.  Whatever requests come in and however their cycles end, the cache
    is the one the run started with or the complete result of the cycle of
    one of the [/metrics] requests, stored with the clock of that request
    and the number of its alert items: a failing cycle never leaves a part
    of its work in the cache. *)
Theorem cache_holds_a_completed_cycle
    (config : Config) (requests : list (string * Env * Q)) (st : State) :
  metrics_cache (snd (scrapes config requests st)) = metrics_cache st
  \/ exists env now acc,
       In ("/metrics", env, now) requests
       /\ collected config env = Ok acc
       /\ metrics_cache (snd (scrapes config requests st)) = cache_of now acc.
Proof.
  revert st. induction requests as [|[[path env] now] rest IH]; intros st.
  - left. reflexivity.
  - rewrite scrapes_cons.
    destruct (IH (snd (do_GET config env path now st)))
      as [Hsame|(env' & now' & acc & Hin & Hacc & Hc)].
    + rewrite Hsame.
      destruct (do_GET_step config env path now st)
        as [[Hcache _]|(-> & acc & Hacc & Hcache & _)].
      * left. exact Hcache.
      * right. exists env, now, acc. split; [left; reflexivity|]. split; assumption.
    + right. exists env', now', acc. split; [right; exact Hin|]. split; assumption.
Qed.

(** X17.  A run of requests keeps the cache sound: it holds nothing, with no
    stored count and the clock 0, or a snapshot whose stored count of alert
    items is at most the number of its records, whose project names are
    distinct, whose counters fit together and whose records all belong to a
    project with counters. *)
Theorem cache_stays_sound
    (config : Config) (requests : list (string * Env * Q)) (st : State) :
  cache_sound (metrics_cache st) ->
  cache_sound (metrics_cache (snd (scrapes config requests st))).
Proof.
  revert st. induction requests as [|[[path env] now] rest IH]; intros st Hst.
  - exact Hst.
  - rewrite scrapes_cons. apply IH.
    destruct (do_GET_step config env path now st)
      as [[Hcache _]|(_ & acc & Hacc & Hcache & _)]; rewrite Hcache.
    + exact Hst.
    + now apply (collected_cache_sound config env).
Qed.

Lemma cache_stays_sound_witness :
  cache_sound (metrics_cache initial_state)
  /\ cache_sound
       (metrics_cache
          (snd (scrapes sample_config
                  [("/metrics", cycle_env 2, 100%Q); ("/health", cycle_env 1, 105%Q);
                   ("/metrics", fail_call (EpProjects "exporter") (cycle_env 1), 200%Q)]
                  initial_state))).
Proof.
  assert (H : cache_sound (metrics_cache initial_state)) by (split; reflexivity).
  split; [exact H|]. apply (cache_stays_sound sample_config _ initial_state H).
Defined.

(** X18.  The mails a run of requests delivers: each has the alert subject;
    there is at most one for each [/metrics] request met while the mail
    settings are set and the SMTP session succeeds; and there is none at all
    when one of [SMTP_USER], [SMTP_PASSWORD] and [YOUR_EMAIL] is empty. *)
Theorem mails_of_a_run
    (config : Config) (requests : list (string * Env * Q)) (st : State) :
  exists sent,
    outbox (snd (scrapes config requests st)) = sent ++ outbox st
    /\ (List.length sent <= List.length (filter (may_mail config) requests))%nat
    /\ Forall (fun mail => subject mail = alert_subject) sent
    /\ (configured config = false -> sent = []).
Proof.
  revert st. induction requests as [|[[path env] now] rest IH]; intros st.
  - exists []. cbn. repeat split; auto.
  - rewrite scrapes_cons.
    destruct (IH (snd (do_GET config env path now st))) as (sent & Hout & Hlen & Hsub & Hoff).
    assert (Hfilter : (List.length (filter (may_mail config) rest)
                       <= List.length (filter (may_mail config) ((path, env, now) :: rest)))%nat).
    { cbn [filter]. destruct (may_mail config (path, env, now)); cbn [List.length]; lia. }
    destruct (do_GET_step config env path now st)
      as [[_ Hsame]|(-> & acc & _ & _ & Hmail)].
    + exists sent. rewrite Hout, Hsame. repeat split; auto. lia.
    + destruct (should_alert (metrics_cache st) (acc_rework_mrs acc)
                && configured config && smtp_delivers env)%bool eqn:Egate.
      * apply andb_prop in Egate. destruct Egate as [Egate Hsmtp].
        apply andb_prop in Egate. destruct Egate as [_ Hconf].
        exists (sent ++ [mkEmail alert_subject (alert_body (acc_rework_mrs acc))]).
        rewrite Hout, Hmail, <- app_assoc. split; [reflexivity|]. split; [|split].
        -- rewrite length_app. cbn [filter]. unfold may_mail at 1. cbn [fst snd].
           rewrite Hconf, Hsmtp. cbn. lia.
        -- apply Forall_app. split; [exact Hsub|]. repeat constructor.
        -- intros Hno. rewrite Hno in Hconf. discriminate.
      * exists sent. rewrite Hout, Hmail. repeat split; auto. lia.
Qed.

(** ** Short durations *)

Lemma round_half_even_small q : (0 <= q)%Q -> (q < 1 # 2)%Q -> round_half_even q = 0.
Proof.
  destruct q as [n d]. unfold Qle, Qlt, round_half_even. cbn [Qnum Qden]. intros H0 H1.
  rewrite Z.div_small, Z.mod_small by lia.
  destruct (Z.compare_spec (2 * n) (Z.pos d)); lia.
Qed.


